(** * saucer: the Win32 window facade (src/window.win32.cpp)

    A shallow embedding of [saucer::window] as implemented for Win32, and the
    properties of its style flags, size overrides, background cache, resize
    gesture, construction and instance counter.

    The window lives in a [world]: the fields of [window::impl], the state the
    platform keeps for the native handle, and a chronological log of what the
    methods asked of the platform and of the dispatcher.  A method is a
    computation that reads the calling thread and threads the world. *)

From Stdlib Require Import ZArith List Bool Lia String.
Import ListNotations.
Open Scope Z_scope.

(** ** Platform constants (winuser.h) *)

Definition WS_MAXIMIZEBOX : Z := 0x00010000.
Definition WS_MINIMIZEBOX : Z := 0x00020000.
Definition WS_THICKFRAME : Z := 0x00040000.
Definition WS_SYSMENU : Z := 0x00080000.
Definition WS_CAPTION : Z := 0x00C00000.
Definition WS_OVERLAPPEDWINDOW : Z := 0x00CF0000.
Definition WS_EX_TOPMOST : Z := 0x00000008.
Definition WS_EX_NOREDIRECTIONBITMAP : Z := 0x00200000.

Definition GWL_STYLE : Z := -16.
Definition GWL_EXSTYLE : Z := -20.
Definition GWLP_USERDATA : Z := -21.

Definition SW_HIDE : Z := 0.
Definition SW_SHOWMAXIMIZED : Z := 3.
Definition SW_MAXIMIZE : Z := 3.
Definition SW_SHOW : Z := 5.
Definition SW_MINIMIZE : Z := 6.
Definition SW_RESTORE : Z := 9.

Definition WM_SYSCOMMAND : Z := 0x0112.
Definition SC_SIZE : Z := 0xF000.
Definition WMSZ_LEFT : Z := 1.
Definition WMSZ_RIGHT : Z := 2.
Definition WMSZ_TOP : Z := 3.
Definition WMSZ_TOPLEFT : Z := 4.
Definition WMSZ_TOPRIGHT : Z := 5.
Definition WMSZ_BOTTOM : Z := 6.
Definition WMSZ_BOTTOMLEFT : Z := 7.
Definition WMSZ_BOTTOMRIGHT : Z := 8.

Definition SM_CXMINTRACK : Z := 34.
Definition SM_CYMINTRACK : Z := 35.
Definition SM_CXMAXTRACK : Z := 59.
Definition SM_CYMAXTRACK : Z := 60.

Definition HWND_TOPMOST : Z := -1.
Definition HWND_NOTOPMOST : Z := -2.
Definition SWP_NOSIZE : Z := 0x0001.
Definition SWP_NOMOVE : Z := 0x0002.

(** ** Data model *)

(** [std::thread::id]. *)
Definition thread_id : Type := nat.

(** [saucer::color], four channels. *)
Definition color : Type := (Z * Z * Z * Z)%type.

(** The platform calls of the file.  The methods issue theirs on
    [m_impl->hwnd], so the handle is left out there; construction and
    destruction, which run against the whole process, name it. *)
Inductive syscall : Type :=
| sys_IsIconic
| sys_GetWindowPlacement
| sys_GetWindowLongW (index : Z)
| sys_SetWindowLongW (index value : Z)
| sys_GetSystemMetrics (index : Z)
| sys_ShowWindow (cmd : Z)
| sys_SetWindowPos (insert_after flags : Z)
| sys_ReleaseCapture
| sys_PostMessage (msg wparam lparam : Z)
| sys_change_background (c : color)
| sys_GetModuleHandleW
| sys_RegisterClassW
| sys_IsWindows8OrGreater
| sys_CreateWindowExW (ex_style style : Z)
| sys_set_dpi_awareness
| sys_SetWindowLongPtrW (handle index : Z) (this : bool)
| sys_DestroyWindow (handle : Z).

(** What the log records: a platform call with the thread that made it, or a
    closure handed from a calling thread to the owning thread's queue. *)
Inductive event : Type :=
| Call (on : thread_id) (c : syscall)
| Post (from owner : thread_id).

(** What the platform holds for the native handle. *)
Record native : Type := mk_native {
  style : Z;        (* GetWindowLongW(hwnd, GWL_STYLE), a LONG *)
  ex_style : Z;     (* GetWindowLongW(hwnd, GWL_EXSTYLE) *)
  iconic : bool;    (* IsIconic(hwnd) *)
  show_cmd : Z;     (* WINDOWPLACEMENT::showCmd *)
  metrics : Z -> Z  (* GetSystemMetrics *)
}.

(** Modelled from the spec: the fields of [window::impl], declared in
    window.win32.impl.hpp, that the file uses: the creation thread, the
    handle, the cached background colour, the optional size overrides and the
    optional callback that tells the native surface of a new background. *)
Module impl.
Record t : Type := mk {
  creation_thread : thread_id;
  hwnd : Z;
  background : color;
  max_size : option (Z * Z);
  min_size : option (Z * Z);
  change_background : option (color -> native -> native)
}.
End impl.

Record world : Type := mk_world {
  m_impl : impl.t;
  os : native;
  log : list event
}.

Definition note (e : event) (w : world) : world :=
  mk_world (m_impl w) (os w) (log w ++ [e]).

Definition with_os (f : native -> native) (w : world) : world :=
  mk_world (m_impl w) (f (os w)) (log w).

Definition with_impl (f : impl.t -> impl.t) (w : world) : world :=
  mk_world (f (m_impl w)) (os w) (log w).

Definition set_style (v : Z) (o : native) : native :=
  mk_native v (ex_style o) (iconic o) (show_cmd o) (metrics o).

Definition set_ex_style (v : Z) (o : native) : native :=
  mk_native (style o) v (iconic o) (show_cmd o) (metrics o).

(** The statics of the translation unit and of [window::impl]. *)
Record process : Type := mk_process {
  instance : Z;          (* static HMODULE instance; 0 is the null handle *)
  instances : nat;       (* impl::instances *)
  calls : list event
}.

(** What the platform answers while one window is constructed. *)
Record platform : Type := mk_platform {
  module_handle : Z;     (* GetModuleHandleW(nullptr) *)
  class_atom : Z;        (* RegisterClassW, 0 on failure *)
  new_handle : Z;        (* CreateWindowExW, 0 (null) on failure *)
  windows8 : bool        (* IsWindows8OrGreater() *)
}.

(** ** Computations

    A computation reads the calling thread and threads a state: the [world] of
    one window for the methods, the [process] for construction and
    destruction.  It returns, raises, or runs out of fuel; the fuel bounds how
    often a method re-enters itself through the dispatcher. *)

Inductive result (A : Type) : Type :=
| Returned (a : A)
| Raised (what : string)
| OutOfFuel.
Arguments Returned {A} a.
Arguments Raised {A} what.
Arguments OutOfFuel {A}.

Definition Comp (S A : Type) : Type := thread_id -> S -> result A * S.

Definition M (A : Type) : Type := Comp world A.
Definition P (A : Type) : Type := Comp process A.

Definition ret {S A : Type} (a : A) : Comp S A := fun _ s => (Returned a, s).

Definition bind {S A B : Type} (c : Comp S A) (k : A -> Comp S B) : Comp S B :=
  fun t s => match c t s with
             | (Returned a, s') => k a t s'
             | (Raised what, s') => (Raised what, s')
             | (OutOfFuel, s') => (OutOfFuel, s')
             end.

Definition out_of_fuel {S A : Type} : Comp S A := fun _ s => (OutOfFuel, s).

Declare Scope comp_scope.
Delimit Scope comp_scope with comp.
Notation "x <- c ;; k" := (bind c (fun x => k))
  (at level 61, c at next level, right associativity) : comp_scope.
Notation "c ;;; k" := (bind c (fun _ => k))
  (at level 61, right associativity) : comp_scope.
Notation "a .| b" := (Z.lor a b) (at level 50, left associativity) : Z_scope.
Notation "a .& b" := (Z.land a b) (at level 40, left associativity) : Z_scope.
Open Scope comp_scope.

Definition emit (c : syscall) : M unit :=
  fun t w => (Returned tt, note (Call t c) w).

Definition read_os {A : Type} (f : native -> A) : M A :=
  fun _ w => (Returned (f (os w)), w).

Definition write_os (f : native -> native) : M unit :=
  fun _ w => (Returned tt, with_os f w).

Definition read_impl {A : Type} (f : impl.t -> A) : M A :=
  fun _ w => (Returned (f (m_impl w)), w).

Definition write_impl (f : impl.t -> impl.t) : M unit :=
  fun _ w => (Returned tt, with_impl f w).

Definition emit_p (c : syscall) : P unit :=
  fun t p => (Returned tt, mk_process (instance p) (instances p) (calls p ++ [Call t c])).

(** Modelled from the spec: [utils::throw_error] of utils.win32.hpp, which
    raises the failure the constructor surfaces. *)
Definition throw_error {S A : Type} (what : string) : Comp S A :=
  fun _ s => (Raised what, s).

(** Conversion of an integer to [bool], as a C++ [return] of a [LONG] from a
    function returning [bool] does it. *)
Definition to_bool (z : Z) : bool := negb (z =? 0).

(** [std::optional::value_or]. *)
Definition value_or {A : Type} (o : option A) (d : A) : A :=
  match o with Some a => a | None => d end.

(** ** The platform

    Only what the file relies on: a style stored with [SetWindowLongW] is what
    [GetWindowLongW] reads back.  Calls whose effect on the native window is
    the platform's business are recorded and nothing more. *)

Definition GetWindowLongW (index : Z) : M Z :=
  emit (sys_GetWindowLongW index) ;;;
  read_os (fun o => if index =? GWL_STYLE then style o
                    else if index =? GWL_EXSTYLE then ex_style o
                    else 0).

Definition SetWindowLongW (index value : Z) : M unit :=
  emit (sys_SetWindowLongW index value) ;;;
  write_os (fun o => if index =? GWL_STYLE then set_style value o
                     else if index =? GWL_EXSTYLE then set_ex_style value o
                     else o).

Definition IsIconic : M bool := emit sys_IsIconic ;;; read_os iconic.

Definition GetWindowPlacement : M Z :=
  emit sys_GetWindowPlacement ;;; read_os show_cmd.

Definition GetSystemMetrics (index : Z) : M Z :=
  emit (sys_GetSystemMetrics index) ;;; read_os (fun o => metrics o index).

Definition ShowWindow (cmd : Z) : M unit := emit (sys_ShowWindow cmd).

Definition SetWindowPos (insert_after flags : Z) : M unit :=
  emit (sys_SetWindowPos insert_after flags).

Definition ReleaseCapture : M unit := emit sys_ReleaseCapture.

Definition PostMessage (msg wparam lparam : Z) : M unit :=
  emit (sys_PostMessage msg wparam lparam).

(** ** The dispatcher *)

(** Modelled from the spec: [impl::is_thread_safe] of window.win32.impl.hpp,
    true iff the calling thread is the window's creation thread. *)
Definition is_thread_safe : M bool :=
  fun t w => (Returned (Nat.eqb t (impl.creation_thread (m_impl w))), w).

(** Modelled from the spec: [impl::post_safe] of window.win32.impl.hpp.  On the
    owning thread the closure runs at once; from another thread it is put on
    the owning thread's queue, the caller waits, and the owning thread's pump
    runs it, the caller receiving what it returned or raised. *)
Definition post_safe {A : Type} (closure : M A) : M A :=
  fun t w =>
    let owner := impl.creation_thread (m_impl w) in
    if Nat.eqb t owner then closure t w
    else closure owner (note (Post t owner) w).

(** ** Queries *)

Fixpoint minimized (fuel : nat) : M bool :=
  match fuel with
  | O => out_of_fuel
  | S fuel =>
      safe <- is_thread_safe ;;
      if negb safe then post_safe (minimized fuel)
      else IsIconic
  end.

Fixpoint maximized (fuel : nat) : M bool :=
  match fuel with
  | O => out_of_fuel
  | S fuel =>
      safe <- is_thread_safe ;;
      if negb safe then post_safe (maximized fuel)
      else
        showCmd <- GetWindowPlacement ;;
        ret (showCmd =? SW_SHOWMAXIMIZED)
  end.

Fixpoint resizable (fuel : nat) : M bool :=
  match fuel with
  | O => out_of_fuel
  | S fuel =>
      safe <- is_thread_safe ;;
      if negb safe then post_safe (resizable fuel)
      else
        current <- GetWindowLongW GWL_STYLE ;;
        ret (to_bool (current .& (WS_THICKFRAME .| WS_MINIMIZEBOX .| WS_MAXIMIZEBOX)))
  end.

Fixpoint decorations (fuel : nat) : M bool :=
  match fuel with
  | O => out_of_fuel
  | S fuel =>
      safe <- is_thread_safe ;;
      if negb safe then post_safe (decorations fuel)
      else
        let flags :=
          WS_CAPTION .| WS_THICKFRAME .| WS_MINIMIZEBOX .| WS_MAXIMIZEBOX .| WS_SYSMENU in
        current <- GetWindowLongW GWL_STYLE ;;
        ret (to_bool (current .& flags))
  end.

(** The source spells the call [GetWindowLong], the macro that is
    [GetWindowLongW] in this build. *)
Fixpoint always_on_top (fuel : nat) : M bool :=
  match fuel with
  | O => out_of_fuel
  | S fuel =>
      safe <- is_thread_safe ;;
      if negb safe then post_safe (always_on_top fuel)
      else
        current <- GetWindowLongW GWL_EXSTYLE ;;
        ret (to_bool (current .& WS_EX_TOPMOST))
  end.

Definition background : M color := read_impl impl.background.

Fixpoint max_size (fuel : nat) : M (Z * Z) :=
  match fuel with
  | O => out_of_fuel
  | S fuel =>
      safe <- is_thread_safe ;;
      if negb safe then post_safe (max_size fuel)
      else
        width <- GetSystemMetrics SM_CXMAXTRACK ;;
        height <- GetSystemMetrics SM_CYMAXTRACK ;;
        override <- read_impl impl.max_size ;;
        ret (value_or override (width, height))
  end.

Fixpoint min_size (fuel : nat) : M (Z * Z) :=
  match fuel with
  | O => out_of_fuel
  | S fuel =>
      safe <- is_thread_safe ;;
      if negb safe then post_safe (min_size fuel)
      else
        width <- GetSystemMetrics SM_CXMINTRACK ;;
        height <- GetSystemMetrics SM_CYMINTRACK ;;
        override <- read_impl impl.min_size ;;
        ret (value_or override (width, height))
  end.

(** ** Visibility *)

Fixpoint hide (fuel : nat) : M unit :=
  match fuel with
  | O => out_of_fuel
  | S fuel =>
      safe <- is_thread_safe ;;
      if negb safe then post_safe (hide fuel)
      else ShowWindow SW_HIDE
  end.

Fixpoint show (fuel : nat) : M unit :=
  match fuel with
  | O => out_of_fuel
  | S fuel =>
      safe <- is_thread_safe ;;
      if negb safe then post_safe (show fuel)
      else ShowWindow SW_SHOW
  end.

(** ** The resize gesture *)

(** Modelled from the spec: [enum class window_edge] of window.hpp, a flag
    enum over top, bottom, left and right.  Each enumerator is one bit; which
    bit is left open. *)
Record edge_bits : Type := mk_edge_bits {
  top_bit : nat;
  bottom_bit : nat;
  left_bit : nat;
  right_bit : nat
}.

Definition flag (bit : nat) : Z := Z.shiftl 1 (Z.of_nat bit).

Module window_edge.
Definition top (b : edge_bits) : Z := flag (top_bit b).
Definition bottom (b : edge_bits) : Z := flag (bottom_bit b).
Definition left (b : edge_bits) : Z := flag (left_bit b).
Definition right (b : edge_bits) : Z := flag (right_bit b).
End window_edge.

(** The enumerators are pairwise different bits. *)
Definition flag_enum (b : edge_bits) : Prop :=
  NoDup [top_bit b; bottom_bit b; left_bit b; right_bit b].

(** The local [translated] of [window::start_resize] once the chain of
    comparisons is through; it starts as [DWORD translated{}], zero. *)
Definition translated (b : edge_bits) (edge : Z) : Z :=
  if edge =? window_edge.left b then 0xf001
  else if edge =? window_edge.right b then 0xf002
  else if edge =? window_edge.top b then 0xf003
  else if edge =? (window_edge.top b .| window_edge.left b) then 0xf004
  else if edge =? (window_edge.top b .| window_edge.right b) then 0xf005
  else if edge =? window_edge.bottom b then 0xf006
  else if edge =? (window_edge.bottom b .| window_edge.left b) then 0xf007
  else if edge =? (window_edge.bottom b .| window_edge.right b) then 0xf008
  else 0.

Definition start_resize (b : edge_bits) (edge : Z) : M unit :=
  ReleaseCapture ;;;
  PostMessage WM_SYSCOMMAND (translated b edge) 0.

(** ** Mutators *)

Definition set_minimized (enabled : bool) : M unit :=
  ShowWindow (if enabled then SW_MINIMIZE else SW_RESTORE).

Definition set_maximized (enabled : bool) : M unit :=
  ShowWindow (if enabled then SW_MAXIMIZE else SW_RESTORE).

Fixpoint set_resizable (fuel : nat) (enabled : bool) : M unit :=
  match fuel with
  | O => out_of_fuel
  | S fuel =>
      safe <- is_thread_safe ;;
      if negb safe then post_safe (set_resizable fuel enabled)
      else
        let flags := WS_THICKFRAME .| WS_MINIMIZEBOX .| WS_MAXIMIZEBOX in
        current_style <- GetWindowLongW GWL_STYLE ;;
        let current_style :=
          if enabled then current_style .| flags
          else current_style .& Z.lnot flags in
        SetWindowLongW GWL_STYLE current_style
  end.

Fixpoint set_decorations (fuel : nat) (enabled : bool) : M unit :=
  match fuel with
  | O => out_of_fuel
  | S fuel =>
      safe <- is_thread_safe ;;
      if negb safe then post_safe (set_decorations fuel enabled)
      else
        let flags := WS_CAPTION .| WS_MINIMIZEBOX .| WS_MAXIMIZEBOX .| WS_SYSMENU in
        current_style <- GetWindowLongW GWL_STYLE ;;
        let current_style :=
          if enabled then current_style .| flags
          else current_style .& Z.lnot flags in
        SetWindowLongW GWL_STYLE current_style
  end.

Fixpoint set_always_on_top (fuel : nat) (enabled : bool) : M unit :=
  match fuel with
  | O => out_of_fuel
  | S fuel =>
      safe <- is_thread_safe ;;
      if negb safe then post_safe (set_always_on_top fuel enabled)
      else
        SetWindowPos (if enabled then HWND_TOPMOST else HWND_NOTOPMOST)
                     (SWP_NOMOVE .| SWP_NOSIZE)
  end.

(** Running the installed [change_background] callback: it sees the cached
    colour and acts on the native side only. *)
Definition run_change_background (f : color -> native -> native) : M unit :=
  c <- read_impl impl.background ;;
  emit (sys_change_background c) ;;;
  write_os (f c).

Definition set_background (c : color) : M unit :=
  write_impl (fun i => impl.mk (impl.creation_thread i) (impl.hwnd i) c
                               (impl.max_size i) (impl.min_size i)
                               (impl.change_background i)) ;;;
  callback <- read_impl impl.change_background ;;
  match callback with
  | None => ret tt
  | Some f => run_change_background f
  end.

Definition set_max_size (width height : Z) : M unit :=
  write_impl (fun i => impl.mk (impl.creation_thread i) (impl.hwnd i)
                               (impl.background i)
                               (Some (width, height)) (impl.min_size i)
                               (impl.change_background i)).

Definition set_min_size (width height : Z) : M unit :=
  write_impl (fun i => impl.mk (impl.creation_thread i) (impl.hwnd i)
                               (impl.background i)
                               (impl.max_size i) (Some (width, height))
                               (impl.change_background i)).

(** ** Construction and destruction *)

Definition this_thread_get_id {S : Type} : Comp S thread_id :=
  fun t s => (Returned t, s).

Definition get_instance : P Z := fun _ p => (Returned (instance p), p).

Definition set_instance (h : Z) : P unit :=
  fun _ p => (Returned tt, mk_process h (instances p) (calls p)).

(** [impl::instances++]. *)
Definition instances_incr : P unit :=
  fun _ p => (Returned tt, mk_process (instance p) (S (instances p)) (calls p)).

Definition GetModuleHandleW (pf : platform) : P Z :=
  emit_p sys_GetModuleHandleW ;;; ret (module_handle pf).

Definition RegisterClassW (pf : platform) : P Z :=
  emit_p sys_RegisterClassW ;;; ret (class_atom pf).

Definition IsWindows8OrGreater (pf : platform) : P bool :=
  emit_p sys_IsWindows8OrGreater ;;; ret (windows8 pf).

Definition CreateWindowExW (pf : platform) (dwExStyle dwStyle : Z) : P Z :=
  emit_p (sys_CreateWindowExW dwExStyle dwStyle) ;;; ret (new_handle pf).

Definition set_dpi_awareness : P unit := emit_p sys_set_dpi_awareness.

Definition SetWindowLongPtrW (handle index : Z) (this : bool) : P unit :=
  emit_p (sys_SetWindowLongPtrW handle index this).

Definition DestroyWindow (handle : Z) : P unit :=
  emit_p (sys_DestroyWindow handle).

(** Modelled from the spec: [std::make_unique<impl>()], the default members
    of [window::impl] (window.win32.impl.hpp): no size override, no callback
    installed; the initial background is the caller's to name. *)
Definition make_unique_impl (bg : color) : impl.t :=
  impl.mk O 0 bg None None None.

Definition window_ctor (pf : platform) (bg : color) : P impl.t :=
  let m_impl := make_unique_impl bg in
  self <- this_thread_get_id ;;
  inst <- get_instance ;;
  (if inst =? 0 then
     handle <- GetModuleHandleW pf ;;
     set_instance handle ;;;
     atom <- RegisterClassW pf ;;
     if atom =? 0 then throw_error "RegisterClassW() failed" else ret tt
   else ret tt) ;;;
  win8 <- IsWindows8OrGreater pf ;;
  let dw_style := if win8 then WS_EX_NOREDIRECTIONBITMAP else 0 in
  created <- CreateWindowExW pf dw_style WS_OVERLAPPEDWINDOW ;;
  (if created =? 0 then throw_error "CreateWindowExW() failed" else ret tt) ;;;
  set_dpi_awareness ;;;
  SetWindowLongPtrW created GWLP_USERDATA true ;;;
  instances_incr ;;;
  ret (impl.mk self created (impl.background m_impl) (impl.max_size m_impl)
               (impl.min_size m_impl) (impl.change_background m_impl)).

Definition window_dtor (i : impl.t) : P unit :=
  SetWindowLongPtrW (impl.hwnd i) GWLP_USERDATA false ;;;
  DestroyWindow (impl.hwnd i).

(** The window objects of a process: the statics, the windows constructed and
    not yet destroyed, and how many constructions have returned so far. *)
Record heap : Type := mk_heap {
  proc : process;
  live : list impl.t;
  built : nat
}.

Inductive lifecycle : Type :=
| New (pf : platform) (bg : color) (t : thread_id)
| Delete (k : nat) (t : thread_id).

Definition remove_nth {A : Type} (k : nat) (l : list A) : list A :=
  firstn k l ++ skipn (S k) l.

Definition step (op : lifecycle) (h : heap) : heap :=
  match op with
  | New pf bg t =>
      match window_ctor pf bg t (proc h) with
      | (Returned i, p) => mk_heap p (live h ++ [i]) (S (built h))
      | (_, p) => mk_heap p (live h) (built h)
      end
  | Delete k t =>
      match nth_error (live h) k with
      | Some i => mk_heap (snd (window_dtor i t (proc h)))
                          (remove_nth k (live h)) (built h)
      | None => h
      end
  end.

Definition run (ops : list lifecycle) (h : heap) : heap :=
  fold_left (fun h op => step op h) ops h.

Definition process_start : heap := mk_heap (mk_process 0 O []) [] O.

(** ** Vocabulary of the statements *)

(** The owning thread of a window. *)
Definition owner (w : world) : thread_id := impl.creation_thread (m_impl w).

(** The world once the dispatcher has taken a call made on thread [t]: as it
    was on the owning thread, one [Post] later from any other. *)
Definition hop (t : thread_id) (w : world) : world :=
  if Nat.eqb t (owner w) then w else note (Post t (owner w)) w.

(** The shape every marshalled method has. *)
Definition guarded {A : Type} (self body : M A) : M A :=
  safe <- is_thread_safe ;;
  if negb safe then post_safe self else body.

(** The [flags] of [set_resizable], which are also what [resizable] tests. *)
Definition resizable_flags : Z := WS_THICKFRAME .| WS_MINIMIZEBOX .| WS_MAXIMIZEBOX.

(** The [flags] of [decorations] and those of [set_decorations]. *)
Definition decorations_read : Z :=
  WS_CAPTION .| WS_THICKFRAME .| WS_MINIMIZEBOX .| WS_MAXIMIZEBOX .| WS_SYSMENU.
Definition decorations_written : Z :=
  WS_CAPTION .| WS_MINIMIZEBOX .| WS_MAXIMIZEBOX .| WS_SYSMENU.

(** A style has some bit of [m]; a style has every bit of [m]. *)
Definition has_bit (s m : Z) : bool := to_bool (s .& m).
Definition has_all (s m : Z) : bool := s .& m =? m.

(** ** Histories *)

(** A call of one of the methods above. *)
Inductive method : Type :=
| call_minimized
| call_maximized
| call_resizable
| call_decorations
| call_always_on_top
| call_background
| call_max_size
| call_min_size
| call_hide
| call_show
| call_start_resize (b : edge_bits) (edge : Z)
| call_set_minimized (enabled : bool)
| call_set_maximized (enabled : bool)
| call_set_resizable (enabled : bool)
| call_set_decorations (enabled : bool)
| call_set_always_on_top (enabled : bool)
| call_set_background (c : color)
| call_set_max_size (width height : Z)
| call_set_min_size (width height : Z).

(** The world a call leaves, with fuel for one re-entry. *)
Definition invoke (m : method) (t : thread_id) (w : world) : world :=
  match m with
  | call_minimized => snd (minimized 2 t w)
  | call_maximized => snd (maximized 2 t w)
  | call_resizable => snd (resizable 2 t w)
  | call_decorations => snd (decorations 2 t w)
  | call_always_on_top => snd (always_on_top 2 t w)
  | call_background => snd (background t w)
  | call_max_size => snd (max_size 2 t w)
  | call_min_size => snd (min_size 2 t w)
  | call_hide => snd (hide 2 t w)
  | call_show => snd (show 2 t w)
  | call_start_resize b edge => snd (start_resize b edge t w)
  | call_set_minimized enabled => snd (set_minimized enabled t w)
  | call_set_maximized enabled => snd (set_maximized enabled t w)
  | call_set_resizable enabled => snd (set_resizable 2 enabled t w)
  | call_set_decorations enabled => snd (set_decorations 2 enabled t w)
  | call_set_always_on_top enabled => snd (set_always_on_top 2 enabled t w)
  | call_set_background c => snd (set_background c t w)
  | call_set_max_size width height => snd (set_max_size width height t w)
  | call_set_min_size width height => snd (set_min_size width height t w)
  end.

(** What can happen to a window between two calls of interest: a method is
    called from some thread, or the platform changes the native state. *)
Inductive action : Type :=
| Invoke (m : method) (t : thread_id)
| Platform (f : native -> native).

Definition act (a : action) (w : world) : world :=
  match a with
  | Invoke m t => invoke m t w
  | Platform f => with_os f w
  end.

Definition perform (acts : list action) (w : world) : world :=
  fold_left (fun w a => act a w) acts w.

Definition sets_max_size (a : action) : bool :=
  match a with
  | Invoke (call_set_max_size _ _) _ => true
  | _ => false
  end.

Definition sets_min_size (a : action) : bool :=
  match a with
  | Invoke (call_set_min_size _ _) _ => true
  | _ => false
  end.

(** A history in which nobody calls [set_max_size], resp. [set_min_size]. *)
Definition leaves_max_size (acts : list action) : bool :=
  forallb (fun a => negb (sets_max_size a)) acts.

Definition leaves_min_size (acts : list action) : bool :=
  forallb (fun a => negb (sets_min_size a)) acts.

(** ** Concrete windows *)

Definition no_metrics : Z -> Z := fun _ => 0.

Definition window_of (creator : thread_id) (st : Z) : world :=
  mk_world (impl.mk creator 1 (0, 0, 0, 255) None None None)
           (mk_native st 0 false 1 no_metrics) [].

(** A window of thread 0 whose style has WS_THICKFRAME and nothing else. *)
Definition only_thickframe : world := window_of O WS_THICKFRAME.

(** A window of thread 0 with the style the constructor asks for. *)
Definition overlapped_window : world := window_of O WS_OVERLAPPEDWINDOW.

(** The enumerators as bits 0 to 3. *)
Definition low_bits : edge_bits := mk_edge_bits 0 1 2 3.

(** A platform on which construction succeeds. *)
Definition healthy : platform := mk_platform 0x400000 0xC001 0x20304 true.

(** A platform that refuses the window class, and one that registers the
    class and then refuses the window. *)
Definition no_class : platform := mk_platform 0x400000 0 0x20304 true.
Definition no_handle : platform := mk_platform 0x400000 0xC001 0 true.

Definition white : color := (255, 255, 255, 255).

(** ** Reading the spec literally *)

(** [resizable()] is true only if every governing bit is set. *)
Definition resizable_all_or_nothing : Prop :=
  forall n t w,
    fst (resizable (S (S n)) t w) = Returned true ->
    has_all (style (os w)) resizable_flags = true.

(** An opposite pair makes [start_resize] issue nothing. *)
Definition opposite_pair_silent (b : edge_bits) : Prop :=
  forall t w,
    log (snd (start_resize b (window_edge.top b .| window_edge.bottom b) t w)) = log w /\
    log (snd (start_resize b (window_edge.left b .| window_edge.right b) t w)) = log w.

(** ** Closing and dragging *)

Definition SC_DRAGMOVE : Z := 0xF012.

Fixpoint close (fuel : nat) : M unit :=
  match fuel with
  | O => out_of_fuel
  | S fuel =>
      safe <- is_thread_safe ;;
      if negb safe then post_safe (close fuel)
      else
        handle <- read_impl impl.hwnd ;;
        emit (sys_DestroyWindow handle)
  end.

Definition start_drag : M unit :=
  ReleaseCapture ;;;
  PostMessage WM_SYSCOMMAND 0xF012 0.

(** ** The message pump

    [window::run] works on the calling thread's message queue and on nothing
    of the window.  The queue is the messages in the order they arrive, each
    by its identifier; what has been asked of the platform is recorded. *)

Definition WM_QUIT : Z := 0x0012.

Inductive pump_call : Type :=
| pump_GetMessage
| pump_PeekMessage
| pump_TranslateMessage (msg : Z)
| pump_DispatchMessage (msg : Z).

Record pump : Type := mk_pump {
  pending : list Z;
  pumped : list pump_call
}.

(** How a run of the pump ends: it returned, it sits in GetMessage with an
    empty queue, or the fuel of the loop is used up. *)
Inductive pumping : Type :=
| Stopped (p : pump)
| Waiting (p : pump)
| Spinning (p : pump).

(** GetMessage takes the oldest message off the queue and answers 0 for
    WM_QUIT and non-zero for any other; with no message it does not return. *)
Definition GetMessage (p : pump) : option (Z * Z * pump) :=
  match pending p with
  | [] => None
  | msg :: rest =>
      Some (if msg =? WM_QUIT then 0 else 1, msg,
            mk_pump rest (pumped p ++ [pump_GetMessage]))
  end.

(** PeekMessage with PM_REMOVE takes the oldest message off the queue, if
    there is one, and answers whether there was. *)
Definition PeekMessage (p : pump) : Z * option Z * pump :=
  match pending p with
  | [] => (0, None, mk_pump [] (pumped p ++ [pump_PeekMessage]))
  | msg :: rest => (1, Some msg, mk_pump rest (pumped p ++ [pump_PeekMessage]))
  end.

Definition TranslateMessage (msg : Z) (p : pump) : pump :=
  mk_pump (pending p) (pumped p ++ [pump_TranslateMessage msg]).

Definition DispatchMessage (msg : Z) (p : pump) : pump :=
  mk_pump (pending p) (pumped p ++ [pump_DispatchMessage msg]).

(** [window::run<true>]; one unit of fuel per turn of the loop. *)
Fixpoint run_true (fuel : nat) (p : pump) : pumping :=
  match fuel with
  | O => Spinning p
  | S fuel =>
      match GetMessage p with
      | None => Waiting p
      | Some (got, msg, p') =>
          if negb (got =? 0)
          then run_true fuel (DispatchMessage msg (TranslateMessage msg p'))
          else Stopped p'
      end
  end.

(** [window::run<false>]. *)
Definition run_false (p : pump) : pump :=
  match PeekMessage p with
  | (got, Some msg, p') =>
      if negb (got =? 0)
      then DispatchMessage msg (TranslateMessage msg p')
      else p'
  | (_, None, p') => p'
  end.

(** [window::run<false>] called [k] times in a row. *)
Fixpoint poll (k : nat) (p : pump) : pump :=
  match k with
  | O => p
  | S k => poll k (run_false p)
  end.

(** The messages handed to DispatchMessage, oldest first. *)
Fixpoint dispatched (trace : list pump_call) : list Z :=
  match trace with
  | [] => []
  | pump_DispatchMessage msg :: trace => msg :: dispatched trace
  | _ :: trace => dispatched trace
  end.

(** ** More vocabulary *)

(** An event that took place on thread [o]: a platform call made there, or a
    closure handed to it. *)
Definition on_thread (o : thread_id) (e : event) : bool :=
  match e with
  | Call t _ => Nat.eqb t o
  | Post _ to => Nat.eqb to o
  end.

(** The methods that touch the platform only behind the dispatcher's guard,
    or not at all.  Left out are [set_minimized], [set_maximized] and
    [start_resize], which call the platform unguarded, and [set_background],
    which runs the installed callback unguarded. *)
Definition keeps_to_owner (m : method) : bool :=
  match m with
  | call_set_minimized _ | call_set_maximized _
  | call_start_resize _ _ | call_set_background _ => false
  | _ => true
  end.

Definition affine (a : action) : bool :=
  match a with
  | Invoke m _ => keeps_to_owner m
  | Platform _ => true
  end.

(** The colour [background()] holds after a history, given the one before. *)
Definition last_background (acts : list action) (c : color) : color :=
  fold_left (fun c a => match a with
                        | Invoke (call_set_background c') _ => c'
                        | _ => c
                        end) acts c.

(** How often the process has asked for the window class. *)
Definition registrations (l : list event) : nat :=
  List.length (filter (fun e => match e with
                                | Call _ sys_RegisterClassW => true
                                | _ => false
                                end) l).

(** A step on a platform whose module handle is not null. *)
Definition has_module (op : lifecycle) : bool :=
  match op with
  | New pf _ _ => negb (module_handle pf =? 0)
  | Delete _ _ => true
  end.

(** The eight edges [start_resize] knows. *)
Definition known_edges (b : edge_bits) : list Z :=
  [window_edge.left b; window_edge.right b; window_edge.top b;
   window_edge.top b .| window_edge.left b;
   window_edge.top b .| window_edge.right b;
   window_edge.bottom b;
   window_edge.bottom b .| window_edge.left b;
   window_edge.bottom b .| window_edge.right b].

(** What one turn of the blocking loop asks of the platform for each of
    the messages, in order. *)
Definition handled (msgs : list Z) : list pump_call :=
  flat_map (fun msg => [pump_GetMessage; pump_TranslateMessage msg;
                        pump_DispatchMessage msg]) msgs.

(** A history that may also hold [start_drag]. *)
Inductive wider_action : Type :=
| Listed (a : action)
| Drag (t : thread_id).

Definition wider_act (a : wider_action) (w : world) : world :=
  match a with
  | Listed a => act a w
  | Drag t => snd (start_drag t w)
  end.

Definition wider_perform (acts : list wider_action) (w : world) : world :=
  fold_left (fun w a => wider_act a w) acts w.

(** ** The counter and the code outside the file *)

(** Modelled from the spec: the code of the repository that can write
    [impl::instances] and is not in this file: the window procedure the
    constructor registers (window.win32.impl.hpp), which the platform calls
    into from CreateWindowExW, DestroyWindow and other calls, and the surface
    subsystem the spec has set up and torn down on this counter.  What that
    code does is left open: it has a state of its own, it sees every call
    the file makes, and it may rewrite the counter each time. *)
Record outside : Type := mk_outside {
  hidden : Type;
  hidden_start : hidden;
  react : hidden -> event -> nat -> hidden * nat
}.

(** The process together with the state of the code outside. *)
Record open_process (o : outside) : Type := mk_open {
  inner : process;
  beyond : hidden o
}.
Arguments mk_open {o} inner beyond.
Arguments inner {o} _.
Arguments beyond {o} _.

(** A platform call in the open world: it is recorded, the code outside
    reacts, and the platform's answer comes back. *)
Definition call_out (o : outside) {A : Type} (c : syscall) (answer : A)
  : Comp (open_process o) A :=
  fun t s =>
    let p := inner s in
    let r := react o (beyond s) (Call t c) (instances p) in
    (Returned answer,
     mk_open (mk_process (instance p) (snd r) (calls p ++ [Call t c])) (fst r)).

(** A statement of the file that touches the statics and nothing else. *)
Definition inside (o : outside) {A : Type} (c : P A) : Comp (open_process o) A :=
  fun t s => (fst (c t (inner s)), mk_open (snd (c t (inner s))) (beyond s)).

(** [window::window], statement by statement as [window_ctor], with the code
    outside reacting to each platform call. *)
Definition window_ctor_open (o : outside) (pf : platform) (bg : color)
  : Comp (open_process o) impl.t :=
  let m_impl := make_unique_impl bg in
  self <- this_thread_get_id ;;
  inst <- inside o get_instance ;;
  (if inst =? 0 then
     handle <- call_out o sys_GetModuleHandleW (module_handle pf) ;;
     inside o (set_instance handle) ;;;
     atom <- call_out o sys_RegisterClassW (class_atom pf) ;;
     if atom =? 0 then throw_error "RegisterClassW() failed" else ret tt
   else ret tt) ;;;
  win8 <- call_out o sys_IsWindows8OrGreater (windows8 pf) ;;
  let dw_style := if win8 then WS_EX_NOREDIRECTIONBITMAP else 0 in
  created <- call_out o (sys_CreateWindowExW dw_style WS_OVERLAPPEDWINDOW)
                      (new_handle pf) ;;
  (if created =? 0 then throw_error "CreateWindowExW() failed" else ret tt) ;;;
  call_out o sys_set_dpi_awareness tt ;;;
  call_out o (sys_SetWindowLongPtrW created GWLP_USERDATA true) tt ;;;
  inside o instances_incr ;;;
  ret (impl.mk self created (impl.background m_impl) (impl.max_size m_impl)
               (impl.min_size m_impl) (impl.change_background m_impl)).

(** [window::~window] in the open world. *)
Definition window_dtor_open (o : outside) (i : impl.t) : Comp (open_process o) unit :=
  call_out o (sys_SetWindowLongPtrW (impl.hwnd i) GWLP_USERDATA false) tt ;;;
  call_out o (sys_DestroyWindow (impl.hwnd i)) tt.

(** The windows of a process in the open world: its state, the windows
    constructed and not yet destroyed, and how many constructions have
    returned. *)
Record open_heap (o : outside) : Type := mk_open_heap {
  now : open_process o;
  alive : list impl.t;
  returned : nat
}.
Arguments mk_open_heap {o} now alive returned.
Arguments now {o} _.
Arguments alive {o} _.
Arguments returned {o} _.

(** What can happen to the process: a window is constructed, a live window
    is destroyed, or something else gives the code outside a turn, be it a
    platform call or a post made by a method of some window (no method
    writes the counter itself) or an event of the outside's own. *)
Inductive happening : Type :=
| Construct (pf : platform) (bg : color) (t : thread_id)
| Destroy (k : nat) (t : thread_id)
| Elsewhere (e : event).

Definition happen (o : outside) (x : happening) (h : open_heap o) : open_heap o :=
  match x with
  | Construct pf bg t =>
      match window_ctor_open o pf bg t (now h) with
      | (Returned i, s) => mk_open_heap s (alive h ++ [i]) (S (returned h))
      | (_, s) => mk_open_heap s (alive h) (returned h)
      end
  | Destroy k t =>
      match nth_error (alive h) k with
      | Some i => mk_open_heap (snd (window_dtor_open o i t (now h)))
                               (remove_nth k (alive h)) (returned h)
      | None => h
      end
  | Elsewhere e =>
      let p := inner (now h) in
      let r := react o (beyond (now h)) e (instances p) in
      mk_open_heap (mk_open (mk_process (instance p) (snd r) (calls p)) (fst r))
                   (alive h) (returned h)
  end.

Definition happenings (o : outside) (xs : list happening) (h : open_heap o)
  : open_heap o :=
  fold_left (fun h x => happen o x h) xs h.

Definition open_start (o : outside) : open_heap o :=
  mk_open_heap (mk_open (mk_process 0 O []) (hidden_start o)) [] O.

(** [impl::instances] as it stands. *)
Definition count {o : outside} (h : open_heap o) : nat := instances (inner (now h)).

(** Code outside that never writes the counter. *)
Definition leaves_count (o : outside) : Prop :=
  forall hid e n, snd (react o hid e n) = n.

(** Code outside that does nothing at all. *)
Definition silent : outside := mk_outside unit tt (fun hid _ n => (hid, n)).

(** The spec read literally: at any time the counter is the number of live
    windows, and it never goes down. *)
Definition count_is_live (o : outside) : Prop :=
  forall xs x,
    let h := happenings o xs (open_start o) in
    count h = List.length (alive h) /\
    (count h <= count (happen o x h))%nat.

(** * Properties *)

(** ** Running a marshalled method *)

Lemma owner_note e w : owner (note e w) = owner w.
Proof. reflexivity. Qed.

Lemma os_hop t w : os (hop t w) = os w.
Proof. unfold hop; destruct (Nat.eqb t (owner w)); reflexivity. Qed.

Lemma m_impl_hop t w : m_impl (hop t w) = m_impl w.
Proof. unfold hop; destruct (Nat.eqb t (owner w)); reflexivity. Qed.

Lemma hop_owner w : hop (owner w) w = w.
Proof. unfold hop; now rewrite Nat.eqb_refl. Qed.

Lemma hop_other t w : t <> owner w -> hop t w = note (Post t (owner w)) w.
Proof. intros H; unfold hop; apply Nat.eqb_neq in H; now rewrite H. Qed.

(** On the owning thread a guarded method is its body. *)
Lemma guarded_owner {A : Type} (self body : M A) w :
  guarded self body (owner w) w = body (owner w) w.
Proof.
  unfold guarded, bind, is_thread_safe, owner.
  rewrite Nat.eqb_refl; reflexivity.
Qed.

(** From another thread it is [self], run by the owning thread after a hop. *)
Lemma guarded_other {A : Type} (self body : M A) t w :
  t <> owner w ->
  guarded self body t w = self (owner w) (note (Post t (owner w)) w).
Proof.
  unfold owner; intros H; apply Nat.eqb_neq in H.
  unfold guarded, bind, is_thread_safe, post_safe.
  rewrite H; cbn [negb]; rewrite H; reflexivity.
Qed.

(** Two units of fuel are enough from any thread: the method re-enters itself
    once at most, and then runs its body on the owning thread. *)
Lemma marshalled {A : Type} (F : nat -> M A) (body : M A) :
  (forall k, F (S k) = guarded (F k) body) ->
  forall n t w, F (S (S n)) t w = body (owner w) (hop t w).
Proof.
  intros HF n t w; rewrite HF.
  destruct (Nat.eq_dec t (owner w)) as [->|Hne].
  - now rewrite guarded_owner, hop_owner.
  - rewrite (guarded_other _ _ _ _ Hne), (hop_other _ _ Hne), HF.
    exact (guarded_owner (F n) body (note (Post t (owner w)) w)).
Qed.

(** ** What each method does, from any thread *)

Ltac run_marshalled F :=
  rewrite (marshalled F _ (fun k => eq_refl));
  cbv [bind emit read_os write_os read_impl ret GetWindowLongW SetWindowLongW
       IsIconic GetWindowPlacement GetSystemMetrics ShowWindow SetWindowPos];
  cbn [os m_impl log note with_os fst snd];
  rewrite ?os_hop, ?m_impl_hop.

Lemma minimized_run n t w :
  minimized (S (S n)) t w =
  (Returned (iconic (os w)), note (Call (owner w) sys_IsIconic) (hop t w)).
Proof. run_marshalled minimized; reflexivity. Qed.

Lemma maximized_run n t w :
  maximized (S (S n)) t w =
  (Returned (show_cmd (os w) =? SW_SHOWMAXIMIZED),
   note (Call (owner w) sys_GetWindowPlacement) (hop t w)).
Proof. run_marshalled maximized; reflexivity. Qed.

Lemma resizable_run n t w :
  resizable (S (S n)) t w =
  (Returned (to_bool (style (os w) .& resizable_flags)),
   note (Call (owner w) (sys_GetWindowLongW GWL_STYLE)) (hop t w)).
Proof. run_marshalled resizable; reflexivity. Qed.

Lemma decorations_run n t w :
  decorations (S (S n)) t w =
  (Returned (to_bool (style (os w) .& decorations_read)),
   note (Call (owner w) (sys_GetWindowLongW GWL_STYLE)) (hop t w)).
Proof. run_marshalled decorations; reflexivity. Qed.

Lemma always_on_top_run n t w :
  always_on_top (S (S n)) t w =
  (Returned (to_bool (ex_style (os w) .& WS_EX_TOPMOST)),
   note (Call (owner w) (sys_GetWindowLongW GWL_EXSTYLE)) (hop t w)).
Proof. run_marshalled always_on_top; reflexivity. Qed.

Lemma max_size_run n t w :
  max_size (S (S n)) t w =
  (Returned (value_or (impl.max_size (m_impl w))
                      (metrics (os w) SM_CXMAXTRACK, metrics (os w) SM_CYMAXTRACK)),
   note (Call (owner w) (sys_GetSystemMetrics SM_CYMAXTRACK))
     (note (Call (owner w) (sys_GetSystemMetrics SM_CXMAXTRACK)) (hop t w))).
Proof. run_marshalled max_size; reflexivity. Qed.

Lemma min_size_run n t w :
  min_size (S (S n)) t w =
  (Returned (value_or (impl.min_size (m_impl w))
                      (metrics (os w) SM_CXMINTRACK, metrics (os w) SM_CYMINTRACK)),
   note (Call (owner w) (sys_GetSystemMetrics SM_CYMINTRACK))
     (note (Call (owner w) (sys_GetSystemMetrics SM_CXMINTRACK)) (hop t w))).
Proof. run_marshalled min_size; reflexivity. Qed.

Lemma hide_run n t w :
  hide (S (S n)) t w =
  (Returned tt, note (Call (owner w) (sys_ShowWindow SW_HIDE)) (hop t w)).
Proof. run_marshalled hide; reflexivity. Qed.

Lemma show_run n t w :
  show (S (S n)) t w =
  (Returned tt, note (Call (owner w) (sys_ShowWindow SW_SHOW)) (hop t w)).
Proof. run_marshalled show; reflexivity. Qed.

Lemma set_resizable_run n enabled t w :
  set_resizable (S (S n)) enabled t w =
  let updated := if enabled then style (os w) .| resizable_flags
                 else style (os w) .& Z.lnot resizable_flags in
  (Returned tt,
   with_os (set_style updated)
     (note (Call (owner w) (sys_SetWindowLongW GWL_STYLE updated))
        (note (Call (owner w) (sys_GetWindowLongW GWL_STYLE)) (hop t w)))).
Proof.
  rewrite (marshalled (fun k => set_resizable k enabled) _ (fun k => eq_refl)).
  cbv [bind emit read_os write_os ret GetWindowLongW SetWindowLongW].
  cbn [os m_impl log note with_os fst snd]; rewrite ?os_hop.
  destruct enabled; reflexivity.
Qed.

Lemma set_decorations_run n enabled t w :
  set_decorations (S (S n)) enabled t w =
  let updated := if enabled then style (os w) .| decorations_written
                 else style (os w) .& Z.lnot decorations_written in
  (Returned tt,
   with_os (set_style updated)
     (note (Call (owner w) (sys_SetWindowLongW GWL_STYLE updated))
        (note (Call (owner w) (sys_GetWindowLongW GWL_STYLE)) (hop t w)))).
Proof.
  rewrite (marshalled (fun k => set_decorations k enabled) _ (fun k => eq_refl)).
  cbv [bind emit read_os write_os ret GetWindowLongW SetWindowLongW].
  cbn [os m_impl log note with_os fst snd]; rewrite ?os_hop.
  destruct enabled; reflexivity.
Qed.

Lemma set_always_on_top_run n enabled t w :
  set_always_on_top (S (S n)) enabled t w =
  (Returned tt,
   note (Call (owner w)
           (sys_SetWindowPos (if enabled then HWND_TOPMOST else HWND_NOTOPMOST)
                             (SWP_NOMOVE .| SWP_NOSIZE)))
     (hop t w)).
Proof.
  rewrite (marshalled (fun k => set_always_on_top k enabled) _ (fun k => eq_refl)).
  reflexivity.
Qed.

(** ** Bit masks *)

Ltac bitwise :=
  apply Z.bits_inj'; intros k Hk;
  rewrite ?Z.land_spec, ?Z.lor_spec, ?Z.lnot_spec, ?Z.bits_0 by assumption;
  repeat match goal with
         | |- context [Z.testbit ?x k] => destruct (Z.testbit x k)
         end;
  reflexivity.

Lemma lor_mask_sets s m : (s .| m) .& m = m.
Proof. bitwise. Qed.

Lemma land_lnot_mask_clears s m : (s .& Z.lnot m) .& m = 0.
Proof. bitwise. Qed.

Lemma lor_mask_keeps_rest s m : (s .| m) .& Z.lnot m = s .& Z.lnot m.
Proof. bitwise. Qed.

Lemma land_lnot_mask_keeps_rest s m : (s .& Z.lnot m) .& Z.lnot m = s .& Z.lnot m.
Proof. bitwise. Qed.

Lemma to_bool_lor a b : to_bool (a .| b) = to_bool a || to_bool b.
Proof.
  unfold to_bool.
  destruct (Z.eqb_spec a 0) as [->|Ha]; cbn [negb orb].
  - now rewrite Z.lor_0_l.
  - destruct (Z.eqb_spec (a .| b) 0) as [E|_]; [|reflexivity].
    apply Z.lor_eq_0_iff in E; tauto.
Qed.

Lemma has_bit_lor s a b : has_bit s (a .| b) = has_bit s a || has_bit s b.
Proof. unfold has_bit; now rewrite Z.land_lor_distr_r, to_bool_lor. Qed.

(** One of three bits of a mask, in a style that has the whole mask or none
    of it. *)
Lemma has_bit_of_set s m a : m .& a = a -> a <> 0 -> s .& m = m -> has_bit s a = true.
Proof.
  intros Ha Hnz Hs; unfold has_bit, to_bool.
  replace (s .& a) with a; [now apply negb_true_iff, Z.eqb_neq|].
  rewrite <- Ha at 2; rewrite Z.land_assoc, Hs; now rewrite Ha.
Qed.

Lemma has_bit_of_cleared s m a : m .& a = a -> s .& m = 0 -> has_bit s a = false.
Proof.
  intros Ha Hs; unfold has_bit, to_bool.
  rewrite <- Ha, Z.land_assoc, Hs, Z.land_0_l; reflexivity.
Qed.

(** ** The resizable flag *)

(** C1 (amended).  From any thread, with fuel for one re-entry,
    [resizable()] returns and answers true exactly when at least one of
    WS_THICKFRAME, WS_MINIMIZEBOX and WS_MAXIMIZEBOX is in the window's style:
    it is the disjunction of the three bit tests, read on the owning thread,
    and it leaves the native state as it was. *)
Theorem resizable_reads_any_bit : forall n t w,
  resizable (S (S n)) t w =
  (Returned (has_bit (style (os w)) WS_THICKFRAME
             || has_bit (style (os w)) WS_MINIMIZEBOX
             || has_bit (style (os w)) WS_MAXIMIZEBOX),
   note (Call (owner w) (sys_GetWindowLongW GWL_STYLE)) (hop t w)).
Proof.
  intros n t w; rewrite resizable_run.
  unfold resizable_flags; fold (has_bit (style (os w)) (WS_THICKFRAME .| WS_MINIMIZEBOX .| WS_MAXIMIZEBOX)).
  now rewrite !has_bit_lor.
Qed.

(** C1 (as stated) fails: a window whose style has WS_THICKFRAME alone is
    reported resizable although two of the three governing bits are missing. *)
Lemma resizable_not_all_or_nothing : ~ resizable_all_or_nothing.
Proof.
  intros H; specialize (H O O only_thickframe).
  rewrite resizable_run in H; specialize (H eq_refl); discriminate H.
Qed.

(** [set_resizable] writes the governing bits and no other bit of the style. *)
Lemma set_resizable_keeps_rest n enabled t w :
  style (os (snd (set_resizable (S (S n)) enabled t w))) .& Z.lnot resizable_flags
  = style (os w) .& Z.lnot resizable_flags.
Proof.
  rewrite set_resizable_run; cbn [snd os with_os note style set_style].
  destruct enabled; [apply lor_mask_keeps_rest|apply land_lnot_mask_keeps_rest].
Qed.

(** C6.  [set_resizable(true)], then [set_resizable(false)], then
    [set_resizable(true)] again, whatever thread makes each call and whatever
    is done to the native state between them: each call returns, after the
    second every governing bit is clear, after the first and the third every
    governing bit is set. *)
Theorem set_resizable_true_false_true :
  forall n1 n2 n3 t1 t2 t3 (meddle1 meddle2 : native -> native) w,
    let r1 := set_resizable (S (S n1)) true t1 w in
    let r2 := set_resizable (S (S n2)) false t2 (with_os meddle1 (snd r1)) in
    let r3 := set_resizable (S (S n3)) true t3 (with_os meddle2 (snd r2)) in
    (fst r1 = Returned tt /\ fst r2 = Returned tt /\ fst r3 = Returned tt) /\
    (style (os (snd r1)) .& resizable_flags = resizable_flags /\
     style (os (snd r2)) .& resizable_flags = 0 /\
     style (os (snd r3)) .& resizable_flags = resizable_flags) /\
    (has_bit (style (os (snd r2))) WS_THICKFRAME = false /\
     has_bit (style (os (snd r2))) WS_MINIMIZEBOX = false /\
     has_bit (style (os (snd r2))) WS_MAXIMIZEBOX = false) /\
    (has_bit (style (os (snd r3))) WS_THICKFRAME = true /\
     has_bit (style (os (snd r3))) WS_MINIMIZEBOX = true /\
     has_bit (style (os (snd r3))) WS_MAXIMIZEBOX = true).
Proof.
  intros n1 n2 n3 t1 t2 t3 meddle1 meddle2 w r1 r2 r3.
  subst r3 r2 r1; rewrite !set_resizable_run.
  cbn [fst snd os with_os note style set_style].
  assert (H2 : forall s, (s .& Z.lnot resizable_flags) .& resizable_flags = 0)
    by (intros; apply land_lnot_mask_clears).
  assert (H3 : forall s, (s .| resizable_flags) .& resizable_flags = resizable_flags)
    by (intros; apply lor_mask_sets).
  repeat split; try apply H2; try apply H3;
    first [ eapply has_bit_of_cleared; [|apply H2]; reflexivity
          | eapply has_bit_of_set; [| |apply H3]; [reflexivity|discriminate] ].
Qed.

(** ** The decorations flag *)

Lemma set_decorations_keeps_thickframe n enabled t w :
  style (os (snd (set_decorations (S (S n)) enabled t w))) .& WS_THICKFRAME
  = style (os w) .& WS_THICKFRAME.
Proof.
  rewrite set_decorations_run; cbn [snd os with_os note style set_style].
  destruct enabled.
  - rewrite Z.land_lor_distr_l.
    replace (decorations_written .& WS_THICKFRAME) with 0 by reflexivity.
    apply Z.lor_0_r.
  - rewrite <- Z.land_assoc.
    replace (Z.lnot decorations_written .& WS_THICKFRAME) with WS_THICKFRAME
      by reflexivity.
    reflexivity.
Qed.

(** C3 (the code departs from it).  [decorations()] tests five bits,
    [set_decorations] writes four of them: WS_THICKFRAME is read and never
    written.  On a window with the style the constructor asks for,
    [set_decorations(false)] returns with WS_THICKFRAME still in the style,
    and [decorations()] then answers true. *)
Theorem set_decorations_misses_thickframe :
  forall n m t t',
    let r := set_decorations (S (S n)) false t overlapped_window in
    decorations_read = decorations_written .| WS_THICKFRAME /\
    decorations_written .& WS_THICKFRAME = 0 /\
    fst r = Returned tt /\
    style (os (snd r)) = WS_THICKFRAME /\
    fst (decorations (S (S m)) t' (snd r)) = Returned true.
Proof.
  intros n m t t' r; subst r.
  rewrite decorations_run, set_decorations_run.
  repeat split.
Qed.

(** ** Which flag operations go through the dispatcher *)

Lemma set_minimized_run enabled t w :
  set_minimized enabled t w =
  (Returned tt,
   note (Call t (sys_ShowWindow (if enabled then SW_MINIMIZE else SW_RESTORE))) w).
Proof. reflexivity. Qed.

Lemma set_maximized_run enabled t w :
  set_maximized enabled t w =
  (Returned tt,
   note (Call t (sys_ShowWindow (if enabled then SW_MAXIMIZE else SW_RESTORE))) w).
Proof. reflexivity. Qed.

(** C2 (the code departs from it).  Called from a thread other than the
    owning one, [set_minimized] and [set_maximized] post nothing: they return
    having called ShowWindow on the calling thread itself.  [hide], which
    makes the same platform call, hands it to the owning thread, as do the
    five getters and the three other setters. *)
Theorem set_minimized_maximized_not_marshalled :
  forall n enabled t w,
    t <> owner w ->
    set_minimized enabled t w =
      (Returned tt,
       note (Call t (sys_ShowWindow (if enabled then SW_MINIMIZE else SW_RESTORE))) w) /\
    set_maximized enabled t w =
      (Returned tt,
       note (Call t (sys_ShowWindow (if enabled then SW_MAXIMIZE else SW_RESTORE))) w) /\
    hide (S (S n)) t w =
      (Returned tt,
       note (Call (owner w) (sys_ShowWindow SW_HIDE)) (note (Post t (owner w)) w)).
Proof.
  intros n enabled t w Hne.
  rewrite hide_run, (hop_other _ _ Hne).
  repeat split.
Qed.

(** At thread 1, on a window of thread 0. *)
Lemma set_minimized_maximized_not_marshalled_witness :
  1%nat <> owner overlapped_window /\
  log (snd (set_minimized true 1%nat overlapped_window))
    = [Call 1%nat (sys_ShowWindow SW_MINIMIZE)] /\
  log (snd (set_maximized true 1%nat overlapped_window))
    = [Call 1%nat (sys_ShowWindow SW_MAXIMIZE)] /\
  log (snd (hide 2 1%nat overlapped_window))
    = [Post 1%nat O; Call O (sys_ShowWindow SW_HIDE)].
Proof.
  assert (Hne : 1%nat <> owner overlapped_window) by (cbv; discriminate).
  destruct (set_minimized_maximized_not_marshalled O true 1%nat overlapped_window Hne)
    as (Hmin & Hmax & Hhide).
  split; [exact Hne|].
  rewrite Hmin, Hmax, Hhide.
  repeat split.
Defined.

(** ** The resize gesture *)

Lemma flag_bit k j : Z.testbit (flag k) (Z.of_nat j) = Nat.eqb k j.
Proof.
  unfold flag; rewrite Z.shiftl_1_l, Z.pow2_bits_eqb by lia.
  destruct (Nat.eqb_spec k j) as [->|Hne].
  - apply Z.eqb_refl.
  - apply Z.eqb_neq; lia.
Qed.

(** What [flag_enum] says, as the boolean comparisons the proofs rewrite
    with. *)
Lemma flag_enum_bits b :
  flag_enum b ->
  let tb := top_bit b in
  let bb := bottom_bit b in
  let lb := left_bit b in
  let rb := right_bit b in
  (Nat.eqb tb bb = false /\ Nat.eqb tb lb = false /\ Nat.eqb tb rb = false) /\
  (Nat.eqb bb tb = false /\ Nat.eqb bb lb = false /\ Nat.eqb bb rb = false) /\
  (Nat.eqb lb tb = false /\ Nat.eqb lb bb = false /\ Nat.eqb lb rb = false) /\
  (Nat.eqb rb tb = false /\ Nat.eqb rb bb = false /\ Nat.eqb rb lb = false).
Proof.
  unfold flag_enum; intros H; cbv zeta.
  inversion_clear H as [|? ? Ht H1]; inversion_clear H1 as [|? ? Hb H2].
  inversion_clear H2 as [|? ? Hl H3]; clear H3.
  cbn [In] in Ht, Hb, Hl.
  repeat split; apply Nat.eqb_neq; intros E; rewrite ?E in *; tauto.
Qed.

(** Two edge values differ as soon as they differ at the bit of one
    enumerator. *)
Ltac differ_at j :=
  let E := fresh "E" in
  intros E; apply (f_equal (fun z => Z.testbit z (Z.of_nat j))) in E;
  cbv beta in E;
  unfold window_edge.top, window_edge.bottom, window_edge.left, window_edge.right in E;
  rewrite ?Z.lor_spec, ?flag_bit, ?Nat.eqb_refl in E;
  repeat match goal with
         | H : Nat.eqb _ _ = false |- _ => rewrite H in E
         end;
  discriminate E.

Ltac edges_differ b :=
  apply Z.eqb_neq;
  first [ differ_at (top_bit b) | differ_at (bottom_bit b)
        | differ_at (left_bit b) | differ_at (right_bit b) ].

Ltac decide_comparisons b :=
  repeat match goal with
         | |- context [?x =? ?x] => rewrite (Z.eqb_refl x)
         | |- context [?x =? ?y] =>
             replace (x =? y) with false by (symmetry; edges_differ b)
         end.

Section Translation.
Variable b : edge_bits.
Hypothesis Hb : flag_enum b.

Let top := window_edge.top b.
Let bottom := window_edge.bottom b.
Let left_ := window_edge.left b.
Let right_ := window_edge.right b.

Ltac translate :=
  destruct (flag_enum_bits b Hb) as
    ((?H & ?H & ?H) & (?H & ?H & ?H) & (?H & ?H & ?H) & (?H & ?H & ?H));
  unfold translated; subst top bottom left_ right_;
  decide_comparisons b; reflexivity.

Lemma translated_left : translated b left_ = SC_SIZE + WMSZ_LEFT.
Proof. translate. Qed.

Lemma translated_right : translated b right_ = SC_SIZE + WMSZ_RIGHT.
Proof. translate. Qed.

Lemma translated_top : translated b top = SC_SIZE + WMSZ_TOP.
Proof. translate. Qed.

Lemma translated_top_left : translated b (top .| left_) = SC_SIZE + WMSZ_TOPLEFT.
Proof. translate. Qed.

Lemma translated_top_right : translated b (top .| right_) = SC_SIZE + WMSZ_TOPRIGHT.
Proof. translate. Qed.

Lemma translated_bottom : translated b bottom = SC_SIZE + WMSZ_BOTTOM.
Proof. translate. Qed.

Lemma translated_bottom_left :
  translated b (bottom .| left_) = SC_SIZE + WMSZ_BOTTOMLEFT.
Proof. translate. Qed.

Lemma translated_bottom_right :
  translated b (bottom .| right_) = SC_SIZE + WMSZ_BOTTOMRIGHT.
Proof. translate. Qed.

Lemma translated_top_bottom : translated b (top .| bottom) = 0.
Proof. translate. Qed.

Lemma translated_left_right : translated b (left_ .| right_) = 0.
Proof. translate. Qed.
End Translation.

Lemma start_resize_run b edge t w :
  start_resize b edge t w =
  (Returned tt,
   note (Call t (sys_PostMessage WM_SYSCOMMAND (translated b edge) 0))
     (note (Call t sys_ReleaseCapture) w)).
Proof. reflexivity. Qed.

(** C4 (amended).  With the enumerators of [window_edge] on four different
    bits, [start_resize] turns left, right, top, top+left, top+right, bottom,
    bottom+left and bottom+right into SC_SIZE plus the matching WMSZ_ code,
    eight different commands; top+bottom and left+right leave [translated] at
    zero.  Whatever the edge, the method releases the capture and posts
    WM_SYSCOMMAND with [translated] as its wParam, on the calling thread; for
    an opposite pair that is WM_SYSCOMMAND with wParam 0. *)
Theorem start_resize_translation :
  forall b, flag_enum b ->
    let top := window_edge.top b in
    let bottom := window_edge.bottom b in
    let left_ := window_edge.left b in
    let right_ := window_edge.right b in
    map (translated b)
        [left_; right_; top; top .| left_; top .| right_;
         bottom; bottom .| left_; bottom .| right_]
    = [SC_SIZE + WMSZ_LEFT; SC_SIZE + WMSZ_RIGHT; SC_SIZE + WMSZ_TOP;
       SC_SIZE + WMSZ_TOPLEFT; SC_SIZE + WMSZ_TOPRIGHT; SC_SIZE + WMSZ_BOTTOM;
       SC_SIZE + WMSZ_BOTTOMLEFT; SC_SIZE + WMSZ_BOTTOMRIGHT] /\
    NoDup (map (translated b)
               [left_; right_; top; top .| left_; top .| right_;
                bottom; bottom .| left_; bottom .| right_]) /\
    translated b (top .| bottom) = 0 /\
    translated b (left_ .| right_) = 0 /\
    forall edge t w,
      start_resize b edge t w =
      (Returned tt,
       note (Call t (sys_PostMessage WM_SYSCOMMAND (translated b edge) 0))
         (note (Call t sys_ReleaseCapture) w)).
Proof.
  intros b Hb top bottom left_ right_; subst top bottom left_ right_.
  cbn [map].
  rewrite (translated_left b Hb), (translated_right b Hb), (translated_top b Hb),
    (translated_top_left b Hb), (translated_top_right b Hb),
    (translated_bottom b Hb), (translated_bottom_left b Hb),
    (translated_bottom_right b Hb).
  split; [reflexivity|].
  split.
  { repeat constructor; cbn [In]; intros H;
      repeat (destruct H as [H|H]; [discriminate H|]); exact H. }
  split; [exact (translated_top_bottom b Hb)|].
  split; [exact (translated_left_right b Hb)|].
  intros; apply start_resize_run.
Qed.

Lemma low_bits_flag_enum : flag_enum low_bits.
Proof.
  unfold flag_enum, low_bits; cbn.
  repeat constructor; cbn [In]; intros H;
    repeat (destruct H as [H|H]; [discriminate H|]); exact H.
Qed.

(** With top, bottom, left and right as 1, 2, 4 and 8. *)
Lemma start_resize_translation_witness :
  flag_enum low_bits /\
  map (translated low_bits) [4; 8; 1; 5; 9; 2; 6; 10]
  = [0xf001; 0xf002; 0xf003; 0xf004; 0xf005; 0xf006; 0xf007; 0xf008] /\
  translated low_bits 3 = 0 /\
  translated low_bits 12 = 0.
Proof.
  split; [exact low_bits_flag_enum|].
  destruct (start_resize_translation low_bits low_bits_flag_enum)
    as (Hmap & _ & Htb & Hlr & _).
  split; [exact Hmap|].
  split; [exact Htb|exact Hlr].
Defined.

(** C4 (as stated) fails: for top+bottom the method still releases the
    capture and posts a WM_SYSCOMMAND, so the platform is issued a command. *)
Lemma opposite_pair_not_silent : ~ opposite_pair_silent low_bits.
Proof.
  intros H; destruct (H O overlapped_window) as [Htb _].
  rewrite start_resize_run in Htb; discriminate Htb.
Qed.

(** ** Construction *)

(** The constructor by cases on the static and on what the platform answers. *)
Lemma window_ctor_cases pf bg t p :
  window_ctor pf bg t p =
  let registering := instance p =? 0 in
  let p1 := if registering
            then mk_process (module_handle pf) (instances p)
                   ((calls p ++ [Call t sys_GetModuleHandleW])
                      ++ [Call t sys_RegisterClassW])
            else p in
  if registering && (class_atom pf =? 0)
  then (Raised "RegisterClassW() failed", p1)
  else
    let dw_style := if windows8 pf then WS_EX_NOREDIRECTIONBITMAP else 0 in
    let p2 := mk_process (instance p1) (instances p1)
                ((calls p1 ++ [Call t sys_IsWindows8OrGreater])
                   ++ [Call t (sys_CreateWindowExW dw_style WS_OVERLAPPEDWINDOW)]) in
    if new_handle pf =? 0
    then (Raised "CreateWindowExW() failed", p2)
    else (Returned (impl.mk t (new_handle pf) bg None None None),
          mk_process (instance p2) (S (instances p2))
            ((calls p2 ++ [Call t sys_set_dpi_awareness])
               ++ [Call t (sys_SetWindowLongPtrW (new_handle pf) GWLP_USERDATA true)])).
Proof.
  unfold window_ctor, bind, this_thread_get_id, get_instance; cbv zeta.
  destruct (instance p =? 0) eqn:Hi; cbn [andb].
  - unfold GetModuleHandleW, RegisterClassW, bind, emit_p, ret, set_instance.
    cbn [instance instances calls].
    destruct (class_atom pf =? 0); [reflexivity|].
    unfold throw_error, IsWindows8OrGreater, CreateWindowExW, bind, emit_p, ret.
    cbn [instance instances calls].
    destruct (new_handle pf =? 0); reflexivity.
  - unfold ret at 1.
    unfold throw_error, IsWindows8OrGreater, CreateWindowExW, bind, emit_p, ret.
    cbn [instance instances calls].
    destruct (new_handle pf =? 0); reflexivity.
Qed.

Lemma window_ctor_fresh pf bg t p i p' :
  window_ctor pf bg t p = (Returned i, p') ->
  i = impl.mk t (new_handle pf) bg None None None /\ new_handle pf <> 0.
Proof.
  rewrite window_ctor_cases; cbv zeta.
  destruct (instance p =? 0), (class_atom pf =? 0); cbn [andb];
    destruct (Z.eqb_spec (new_handle pf) 0); intros E; inversion E; auto.
Qed.

(** C9.  When the class is being registered and RegisterClassW answers 0,
    the constructor raises at once: nothing is asked of the platform after
    it.  When CreateWindowExW answers the null handle, the constructor
    raises right after that call.  Either way no window comes back: the
    outcome carries none, the set of live windows and the instance counter
    are as before. *)
Theorem window_ctor_failure :
  forall pf bg t h,
    (instance (proc h) = 0 -> class_atom pf = 0 ->
     window_ctor pf bg t (proc h) =
       (Raised "RegisterClassW() failed",
        mk_process (module_handle pf) (instances (proc h))
          ((calls (proc h) ++ [Call t sys_GetModuleHandleW])
             ++ [Call t sys_RegisterClassW])) /\
     live (step (New pf bg t) h) = live h /\
     instances (proc (step (New pf bg t) h)) = instances (proc h)) /\
    (instance (proc h) <> 0 \/ class_atom pf <> 0 -> new_handle pf = 0 ->
     (exists before,
        window_ctor pf bg t (proc h) =
          (Raised "CreateWindowExW() failed",
           mk_process (if instance (proc h) =? 0 then module_handle pf
                       else instance (proc h))
             (instances (proc h))
             (before ++ [Call t (sys_CreateWindowExW
                                   (if windows8 pf then WS_EX_NOREDIRECTIONBITMAP else 0)
                                   WS_OVERLAPPEDWINDOW)]))) /\
     live (step (New pf bg t) h) = live h /\
     instances (proc (step (New pf bg t) h)) = instances (proc h)).
Proof.
  intros pf bg t h; split.
  - intros Hi Hc.
    assert (E : window_ctor pf bg t (proc h) =
       (Raised "RegisterClassW() failed",
        mk_process (module_handle pf) (instances (proc h))
          ((calls (proc h) ++ [Call t sys_GetModuleHandleW])
             ++ [Call t sys_RegisterClassW]))).
    { rewrite window_ctor_cases; cbv zeta; rewrite Hi, Hc; reflexivity. }
    split; [exact E|].
    unfold step; rewrite E; split; reflexivity.
  - intros Hor Hn.
    assert (E : exists before,
        window_ctor pf bg t (proc h) =
          (Raised "CreateWindowExW() failed",
           mk_process (if instance (proc h) =? 0 then module_handle pf
                       else instance (proc h))
             (instances (proc h))
             (before ++ [Call t (sys_CreateWindowExW
                                   (if windows8 pf then WS_EX_NOREDIRECTIONBITMAP else 0)
                                   WS_OVERLAPPEDWINDOW)]))).
    { rewrite window_ctor_cases; cbv zeta; rewrite Hn.
      destruct (Z.eqb_spec (instance (proc h)) 0) as [Hi|Hi];
        destruct (Z.eqb_spec (class_atom pf) 0) as [Hc|Hc]; cbn [andb];
        try (exfalso; destruct Hor as [Hor|Hor]; contradiction);
        eexists; reflexivity. }
    split; [exact E|].
    destruct E as [before E]; unfold step; rewrite E; split; reflexivity.
Qed.

(** In a process that has registered nothing yet, on a platform that refuses
    the class and on one that refuses the window. *)
Lemma window_ctor_failure_witness :
  fst (window_ctor no_class white O (proc process_start))
    = Raised "RegisterClassW() failed" /\
  calls (snd (window_ctor no_class white O (proc process_start)))
    = [Call O sys_GetModuleHandleW; Call O sys_RegisterClassW] /\
  live (step (New no_class white O) process_start) = [] /\
  live (step (New no_handle white O) process_start) = [] /\
  instances (proc (step (New no_handle white O) process_start)) = O.
Proof.
  destruct (window_ctor_failure no_class white O process_start) as [Hreg _].
  destruct (Hreg eq_refl eq_refl) as (E & Hlive & _).
  destruct (window_ctor_failure no_handle white O process_start) as [_ Hwin].
  destruct (Hwin (or_intror (fun H : class_atom no_handle = 0 => Z.lt_irrefl 0
                     (eq_ind (class_atom no_handle) (fun z => 0 < z) eq_refl 0 H)))
                 eq_refl) as (_ & Hlive' & Hcount).
  rewrite E.
  split; [reflexivity|].
  split; [reflexivity|].
  split; [exact Hlive|].
  split; [exact Hlive'|exact Hcount].
Defined.

(** ** The instance counter *)

Lemma run_snoc ops op h : run (ops ++ [op]) h = step op (run ops h).
Proof. unfold run; now rewrite fold_left_app. Qed.

Lemma length_remove_nth {A : Type} k (l : list A) :
  (List.length (remove_nth k l) <= List.length l)%nat.
Proof.
  unfold remove_nth; rewrite length_app, length_firstn, length_skipn; lia.
Qed.

Lemma happenings_snoc o xs x h :
  happenings o (xs ++ [x]) h = happen o x (happenings o xs h).
Proof. unfold happenings; now rewrite fold_left_app. Qed.

(** With code outside that does nothing, the open constructor is the
    constructor. *)
Lemma window_ctor_open_silent pf bg t p :
  fst (window_ctor_open silent pf bg t (@mk_open silent p tt)) = fst (window_ctor pf bg t p) /\
  inner (snd (window_ctor_open silent pf bg t (@mk_open silent p tt)))
    = snd (window_ctor pf bg t p).
Proof.
  unfold window_ctor_open, window_ctor, bind, this_thread_get_id, inside,
    call_out, get_instance, set_instance, instances_incr, throw_error, ret,
    GetModuleHandleW, RegisterClassW, IsWindows8OrGreater, CreateWindowExW,
    set_dpi_awareness, SetWindowLongPtrW, emit_p; cbn.
  destruct (instance p =? 0), (class_atom pf =? 0), (new_handle pf =? 0);
    cbn; split; reflexivity.
Qed.

(** Whether the constructor returns is the platform's doing, not the code
    outside's. *)
Lemma window_ctor_open_outcome o pf bg t s :
  fst (window_ctor_open o pf bg t s) = fst (window_ctor pf bg t (inner s)).
Proof.
  unfold window_ctor_open, window_ctor, bind, this_thread_get_id, inside,
    call_out, get_instance, set_instance, instances_incr, throw_error, ret,
    GetModuleHandleW, RegisterClassW, IsWindows8OrGreater, CreateWindowExW,
    set_dpi_awareness, SetWindowLongPtrW, emit_p; cbn.
  destruct (instance (inner s) =? 0), (class_atom pf =? 0), (new_handle pf =? 0);
    reflexivity.
Qed.

(** With code outside that leaves the counter alone, the constructor adds
    one when it returns and nothing when it raises. *)
Lemma window_ctor_open_count o pf bg t s :
  leaves_count o ->
  instances (inner (snd (window_ctor_open o pf bg t s))) =
  match fst (window_ctor_open o pf bg t s) with
  | Returned _ => S (instances (inner s))
  | _ => instances (inner s)
  end.
Proof.
  intros Ho.
  unfold window_ctor_open, bind, this_thread_get_id, inside,
    call_out, get_instance, set_instance, instances_incr, throw_error, ret; cbn.
  destruct (instance (inner s) =? 0), (class_atom pf =? 0), (new_handle pf =? 0);
    cbn; rewrite ?Ho; reflexivity.
Qed.

Lemma window_dtor_open_count o i t s :
  leaves_count o ->
  instances (inner (snd (window_dtor_open o i t s))) = instances (inner s).
Proof.
  intros Ho; unfold window_dtor_open, bind, call_out; cbn.
  rewrite !Ho; reflexivity.
Qed.

(** One happening, the code outside leaving the counter alone: the counter
    goes up by one when a constructor returns and stays otherwise. *)
Lemma happen_count o x h :
  leaves_count o ->
  count (happen o x h) = (count h + (returned (happen o x h) - returned h))%nat /\
  (returned h <= returned (happen o x h))%nat.
Proof.
  intros Ho; unfold count; destruct x as [pf bg t|k t|e]; unfold happen.
  - pose proof (window_ctor_open_count o pf bg t (now h) Ho) as H.
    destruct (window_ctor_open o pf bg t (now h)) as [[i|what|] s];
      cbn [fst snd now returned] in *; rewrite H; lia.
  - destruct (nth_error (alive h) k); cbn [now returned];
      rewrite ?window_dtor_open_count by exact Ho; lia.
  - cbn [now returned inner instances]; rewrite Ho; lia.
Qed.

Lemma happen_alive o x h :
  (List.length (alive h) <= returned h)%nat ->
  (List.length (alive (happen o x h)) <= returned (happen o x h))%nat.
Proof.
  intros H; destruct x as [pf bg t|k t|e]; unfold happen.
  - destruct (window_ctor_open o pf bg t (now h)) as [[i|what|] s];
      cbn [alive returned]; rewrite ?length_app; cbn [List.length]; lia.
  - destruct (nth_error (alive h) k); cbn [alive returned]; [|exact H].
    pose proof (length_remove_nth k (alive h)); lia.
  - exact H.
Qed.




(** ** Size overrides *)

Lemma set_max_size_run width height t w :
  set_max_size width height t w =
  (Returned tt,
   mk_world (impl.mk (impl.creation_thread (m_impl w)) (impl.hwnd (m_impl w))
                     (impl.background (m_impl w)) (Some (width, height))
                     (impl.min_size (m_impl w)) (impl.change_background (m_impl w)))
            (os w) (log w)).
Proof. reflexivity. Qed.

Lemma set_min_size_run width height t w :
  set_min_size width height t w =
  (Returned tt,
   mk_world (impl.mk (impl.creation_thread (m_impl w)) (impl.hwnd (m_impl w))
                     (impl.background (m_impl w)) (impl.max_size (m_impl w))
                     (Some (width, height)) (impl.change_background (m_impl w)))
            (os w) (log w)).
Proof. reflexivity. Qed.

(** The fields of [window::impl] after a call: three methods write one field
    each, the others write none. *)
Lemma invoke_m_impl m t w :
  m_impl (invoke m t w) =
  let i := m_impl w in
  match m with
  | call_set_background c =>
      impl.mk (impl.creation_thread i) (impl.hwnd i) c (impl.max_size i)
              (impl.min_size i) (impl.change_background i)
  | call_set_max_size width height =>
      impl.mk (impl.creation_thread i) (impl.hwnd i) (impl.background i)
              (Some (width, height)) (impl.min_size i) (impl.change_background i)
  | call_set_min_size width height =>
      impl.mk (impl.creation_thread i) (impl.hwnd i) (impl.background i)
              (impl.max_size i) (Some (width, height)) (impl.change_background i)
  | _ => i
  end.
Proof.
  destruct m; unfold invoke; cbv zeta;
    rewrite ?minimized_run, ?maximized_run, ?resizable_run, ?decorations_run,
      ?always_on_top_run, ?max_size_run, ?min_size_run, ?hide_run, ?show_run,
      ?set_resizable_run, ?set_decorations_run, ?set_always_on_top_run;
    cbn [snd m_impl note with_os]; rewrite ?m_impl_hop; try reflexivity.
  unfold set_background, bind, write_impl, read_impl, with_impl.
  cbn [m_impl impl.change_background].
  destruct (impl.change_background (m_impl w)); reflexivity.
Qed.

Lemma act_keeps_max_size a w :
  sets_max_size a = false ->
  impl.max_size (m_impl (act a w)) = impl.max_size (m_impl w).
Proof.
  destruct a as [m t|f]; [|reflexivity].
  intros H; cbn [act]; rewrite invoke_m_impl.
  destruct m; try reflexivity; discriminate H.
Qed.

Lemma act_keeps_min_size a w :
  sets_min_size a = false ->
  impl.min_size (m_impl (act a w)) = impl.min_size (m_impl w).
Proof.
  destruct a as [m t|f]; [|reflexivity].
  intros H; cbn [act]; rewrite invoke_m_impl.
  destruct m; try reflexivity; discriminate H.
Qed.

Lemma perform_keeps_max_size acts : forall w,
  leaves_max_size acts = true ->
  impl.max_size (m_impl (perform acts w)) = impl.max_size (m_impl w).
Proof.
  induction acts as [|a acts IH]; intros w H; [reflexivity|].
  cbn [leaves_max_size forallb] in H; apply andb_true_iff in H as [Ha Hacts].
  apply negb_true_iff in Ha.
  cbn [perform fold_left]; fold (perform acts (act a w)).
  now rewrite (IH _ Hacts), act_keeps_max_size.
Qed.

Lemma perform_keeps_min_size acts : forall w,
  leaves_min_size acts = true ->
  impl.min_size (m_impl (perform acts w)) = impl.min_size (m_impl w).
Proof.
  induction acts as [|a acts IH]; intros w H; [reflexivity|].
  cbn [leaves_min_size forallb] in H; apply andb_true_iff in H as [Ha Hacts].
  apply negb_true_iff in Ha.
  cbn [perform fold_left]; fold (perform acts (act a w)).
  now rewrite (IH _ Hacts), act_keeps_min_size.
Qed.

(** C7.  After [set_max_size(w,h)], and after whatever else is called on the
    window or done to its native state short of another [set_max_size],
    [max_size()] returns [(w,h)], from any thread; likewise [min_size()]
    after [set_min_size(w,h)].  On a window as the constructor returns it,
    until the first such call, they return what GetSystemMetrics answers for
    SM_CXMAXTRACK and SM_CYMAXTRACK, resp. SM_CXMINTRACK and SM_CYMINTRACK. *)
Theorem size_overrides_read_back :
  forall n t t' width height acts w,
    (leaves_max_size acts = true ->
     fst (max_size (S (S n)) t (perform acts (snd (set_max_size width height t' w))))
       = Returned (width, height)) /\
    (leaves_min_size acts = true ->
     fst (min_size (S (S n)) t (perform acts (snd (set_min_size width height t' w))))
       = Returned (width, height)) /\
    (forall pf bg p i p',
        window_ctor pf bg t' p = (Returned i, p') ->
        m_impl w = i ->
        (leaves_max_size acts = true ->
         fst (max_size (S (S n)) t (perform acts w))
           = Returned (metrics (os (perform acts w)) SM_CXMAXTRACK,
                       metrics (os (perform acts w)) SM_CYMAXTRACK)) /\
        (leaves_min_size acts = true ->
         fst (min_size (S (S n)) t (perform acts w))
           = Returned (metrics (os (perform acts w)) SM_CXMINTRACK,
                       metrics (os (perform acts w)) SM_CYMINTRACK))).
Proof.
  intros n t t' width height acts w.
  split; [|split].
  - intros H; rewrite max_size_run; cbn [fst].
    rewrite (perform_keeps_max_size _ _ H), set_max_size_run; reflexivity.
  - intros H; rewrite min_size_run; cbn [fst].
    rewrite (perform_keeps_min_size _ _ H), set_min_size_run; reflexivity.
  - intros pf bg p i p' Hctor Hw.
    destruct (window_ctor_fresh _ _ _ _ _ _ Hctor) as [-> _].
    split; intros H.
    + rewrite max_size_run; cbn [fst].
      rewrite (perform_keeps_max_size _ _ H), Hw; reflexivity.
    + rewrite min_size_run; cbn [fst].
      rewrite (perform_keeps_min_size _ _ H), Hw; reflexivity.
Qed.

(** On a window of thread 0 as constructed on a healthy platform whose bounds
    are (1936, 1096) and (136, 39), asked from thread 1 after a history that
    changes much else. *)
Lemma size_overrides_read_back_witness :
  let o := mk_native WS_OVERLAPPEDWINDOW 0 false 1
             (fun i => if i =? SM_CXMAXTRACK then 1936
                       else if i =? SM_CYMAXTRACK then 1096
                       else if i =? SM_CXMINTRACK then 136
                       else if i =? SM_CYMINTRACK then 39 else 0) in
  let w := mk_world (impl.mk O 0x20304 white None None None) o [] in
  let acts := [Invoke (call_set_resizable false) 1%nat;
               Platform (set_style 0);
               Invoke (call_set_background (0, 0, 0, 255)) O;
               Invoke call_hide 1%nat] in
  fst (window_ctor healthy white O (proc process_start)) = Returned (m_impl w) /\
  leaves_max_size acts = true /\
  leaves_min_size acts = true /\
  fst (max_size 2 1%nat (perform acts w)) = Returned (1936, 1096) /\
  fst (min_size 2 1%nat (perform acts w)) = Returned (136, 39) /\
  fst (max_size 2 1%nat (perform acts (snd (set_max_size 800 600 1%nat w))))
    = Returned (800, 600) /\
  fst (min_size 2 1%nat (perform acts (snd (set_min_size 320 200 1%nat w))))
    = Returned (320, 200).
Proof.
  intros o w acts.
  assert (Hctor : window_ctor healthy white O (proc process_start)
                  = (Returned (m_impl w), snd (window_ctor healthy white O (proc process_start))))
    by reflexivity.
  assert (Hmaxfree : leaves_max_size acts = true) by reflexivity.
  assert (Hminfree : leaves_min_size acts = true) by reflexivity.
  destruct (size_overrides_read_back O 1%nat O 800 600 acts w) as (_ & _ & Hnew).
  destruct (size_overrides_read_back O 1%nat 1%nat 800 600 acts w) as (Hset & _ & _).
  destruct (size_overrides_read_back O 1%nat 1%nat 320 200 acts w) as (_ & Hset' & _).
  destruct (Hnew _ _ _ _ _ Hctor eq_refl) as [Hmax Hmin].
  split; [rewrite Hctor; reflexivity|].
  split; [exact Hmaxfree|].
  split; [exact Hminfree|].
  split; [rewrite (Hmax Hmaxfree); reflexivity|].
  split; [rewrite (Hmin Hminfree); reflexivity|].
  split; [exact (Hset Hmaxfree)|exact (Hset' Hminfree)].
Defined.

(** C10.  [set_max_size] and [set_min_size] take no fuel and read no thread:
    from any caller they return with the one override replaced and the rest
    of the world as it was, the creation thread, the handle, the background,
    the other override, the callback, the native state, and a log with no
    platform call and no post added. *)
Theorem set_size_bounds_write_only_the_override :
  forall width height t w,
    set_max_size width height t w =
      (Returned tt,
       mk_world (impl.mk (impl.creation_thread (m_impl w)) (impl.hwnd (m_impl w))
                         (impl.background (m_impl w)) (Some (width, height))
                         (impl.min_size (m_impl w)) (impl.change_background (m_impl w)))
                (os w) (log w)) /\
    set_min_size width height t w =
      (Returned tt,
       mk_world (impl.mk (impl.creation_thread (m_impl w)) (impl.hwnd (m_impl w))
                         (impl.background (m_impl w)) (impl.max_size (m_impl w))
                         (Some (width, height)) (impl.change_background (m_impl w)))
                (os w) (log w)).
Proof. intros; split; reflexivity. Qed.

(** ** The background cache *)

(** C8.  [background()] reads no thread and takes no fuel: from any caller it
    returns the cached colour and leaves the world, log included, as it was.
    After [set_background(c)] it returns [c] whether or not a callback is
    installed; with none installed the native state and the log are
    untouched, with one installed the callback has been run once, on the
    calling thread, with [c]. *)
Theorem background_round_trip :
  forall c t t' w,
    background t w = (Returned (impl.background (m_impl w)), w) /\
    fst (set_background c t w) = Returned tt /\
    fst (background t' (snd (set_background c t w))) = Returned c /\
    match impl.change_background (m_impl w) with
    | None =>
        os (snd (set_background c t w)) = os w /\
        log (snd (set_background c t w)) = log w
    | Some f =>
        os (snd (set_background c t w)) = f c (os w) /\
        log (snd (set_background c t w)) = log w ++ [Call t (sys_change_background c)]
    end.
Proof.
  intros c t t' w.
  split; [reflexivity|].
  unfold set_background, background, bind, write_impl, read_impl, with_impl.
  cbn [m_impl os log impl.change_background].
  destruct (impl.change_background (m_impl w)) as [f|];
    repeat split.
Qed.

(** * Further properties *)

(** ** Style flags: read after write *)

Lemma to_bool_mask_set s m : m <> 0 -> to_bool ((s .| m) .& m) = true.
Proof.
  intros H; rewrite lor_mask_sets; unfold to_bool.
  now apply negb_true_iff, Z.eqb_neq.
Qed.

Lemma to_bool_mask_cleared s m : to_bool ((s .& Z.lnot m) .& m) = false.
Proof. now rewrite land_lnot_mask_clears. Qed.

(** Clearing [W] and then reading [W] and [T] together, where [T] is apart
    from [W], reads [T]. *)
Lemma land_lnot_then_wider s W T :
  W .& T = 0 -> (s .& Z.lnot W) .& (W .| T) = s .& T.
Proof.
  intros H; apply Z.bits_inj'; intros k Hk.
  apply (f_equal (fun z => Z.testbit z k)) in H.
  rewrite Z.land_spec, Z.bits_0 in H.
  rewrite !Z.land_spec, Z.lor_spec, Z.lnot_spec by assumption.
  destruct (Z.testbit s k), (Z.testbit W k), (Z.testbit T k);
    cbn in *; congruence.
Qed.

(** X1.  [resizable()] after [set_resizable(enabled)] returns [enabled], on
    every window and whichever threads make the two calls. *)
Theorem resizable_after_set_resizable :
  forall n m enabled t t' w,
    fst (resizable (S (S m)) t' (snd (set_resizable (S (S n)) enabled t w)))
    = Returned enabled.
Proof.
  intros n m enabled t t' w.
  rewrite resizable_run, set_resizable_run.
  cbn [fst snd os with_os note style set_style].
  destruct enabled.
  - rewrite to_bool_mask_set; [reflexivity|discriminate].
  - rewrite to_bool_mask_cleared; reflexivity.
Qed.

Lemma set_resizable_os n enabled t w :
  os (snd (set_resizable (S (S n)) enabled t w)) =
  set_style (if enabled then style (os w) .| resizable_flags
             else style (os w) .& Z.lnot resizable_flags) (os w).
Proof.
  rewrite set_resizable_run; cbv zeta.
  unfold with_os, note; cbn [snd os]; rewrite os_hop; reflexivity.
Qed.

Lemma set_resizable_m_impl n enabled t w :
  m_impl (snd (set_resizable (S (S n)) enabled t w)) = m_impl w.
Proof.
  rewrite set_resizable_run; cbv zeta.
  unfold with_os, note; cbn [snd m_impl]; apply m_impl_hop.
Qed.

(** X2.  [set_resizable] changes the three governing bits of the style and
    nothing else: the other style bits, the extended style, the rest of the
    native state and the fields of [window::impl] are as before; and a second
    call with the same argument changes nothing any more. *)
Theorem set_resizable_frame :
  forall n n' enabled t t' w,
    let w1 := snd (set_resizable (S (S n)) enabled t w) in
    style (os w1) .& Z.lnot resizable_flags = style (os w) .& Z.lnot resizable_flags /\
    set_style (style (os w)) (os w1) = os w /\
    m_impl w1 = m_impl w /\
    os (snd (set_resizable (S (S n')) enabled t' w1)) = os w1.
Proof.
  intros n n' enabled t t' w w1; subst w1.
  split; [apply set_resizable_keeps_rest|].
  split; [rewrite set_resizable_os; destruct (os w); reflexivity|].
  split; [apply set_resizable_m_impl|].
  rewrite !set_resizable_os.
  unfold set_style; cbn [style ex_style iconic show_cmd metrics].
  destruct enabled; f_equal.
  - rewrite <- Z.lor_assoc, Z.lor_diag; reflexivity.
  - rewrite <- Z.land_assoc, Z.land_diag; reflexivity.
Qed.

(** X3.  [decorations()] after [set_decorations(enabled)] returns [enabled]
    or-ed with whether the style had WS_THICKFRAME before the call: turning
    decorations on always reads back as on, turning them off reads back as
    off exactly on windows without WS_THICKFRAME. *)
Theorem decorations_after_set_decorations :
  forall n m enabled t t' w,
    fst (decorations (S (S m)) t' (snd (set_decorations (S (S n)) enabled t w)))
    = Returned (enabled || has_bit (style (os w)) WS_THICKFRAME).
Proof.
  intros n m enabled t t' w.
  rewrite decorations_run, set_decorations_run.
  cbn [fst snd os with_os note style set_style].
  change decorations_read with (decorations_written .| WS_THICKFRAME).
  destruct enabled; cbn [orb].
  - rewrite Z.land_lor_distr_r, to_bool_lor, to_bool_mask_set;
      [reflexivity|discriminate].
  - rewrite land_lnot_then_wider by reflexivity; reflexivity.
Qed.

(** ** Style flags: how the two setters interfere *)

Lemma set_decorations_os n enabled t w :
  os (snd (set_decorations (S (S n)) enabled t w)) =
  set_style (if enabled then style (os w) .| decorations_written
             else style (os w) .& Z.lnot decorations_written) (os w).
Proof.
  rewrite set_decorations_run; cbv zeta.
  unfold with_os, note; cbn [snd os]; rewrite os_hop; reflexivity.
Qed.

(** Bits outside both masks that were cleared are clear in any mask the two
    cover. *)
Lemma land_lnot_lnot_covered s W F R :
  R .& Z.lnot W .& Z.lnot F = 0 ->
  (s .& Z.lnot W .& Z.lnot F) .& R = 0.
Proof.
  intros H; apply Z.bits_inj'; intros k Hk.
  apply (f_equal (fun z => Z.testbit z k)) in H.
  rewrite !Z.land_spec, !Z.lnot_spec, Z.bits_0 in H by assumption.
  rewrite !Z.land_spec, !Z.lnot_spec, Z.bits_0 by assumption.
  destruct (Z.testbit s k), (Z.testbit W k), (Z.testbit F k), (Z.testbit R k);
    cbn in *; congruence.
Qed.

(** X4.  The two flags share bits, so the setters interfere.  Turning
    decorations on makes [resizable()] true even right after
    [set_resizable(false)]; turning resizable on makes [decorations()] true
    even right after [set_decorations(false)]; turning resizable off leaves
    [decorations()] true on a decorated window; and only with both turned
    off, in either order, do both getters answer false. *)
Theorem decorations_and_resizable_interfere :
  forall n1 n2 n3 t1 t2 t3 w,
    let resizable_off := fun w => snd (set_resizable (S (S n1)) false t1 w) in
    let resizable_on := fun w => snd (set_resizable (S (S n1)) true t1 w) in
    let decorations_off := fun w => snd (set_decorations (S (S n2)) false t2 w) in
    let decorations_on := fun w => snd (set_decorations (S (S n2)) true t2 w) in
    let ask_resizable := fun w => fst (resizable (S (S n3)) t3 w) in
    let ask_decorations := fun w => fst (decorations (S (S n3)) t3 w) in
    ask_resizable (decorations_on (resizable_off w)) = Returned true /\
    ask_decorations (resizable_on (decorations_off w)) = Returned true /\
    ask_decorations (resizable_off (decorations_on w)) = Returned true /\
    (ask_resizable (resizable_off (decorations_off w)) = Returned false /\
     ask_decorations (resizable_off (decorations_off w)) = Returned false) /\
    (ask_resizable (decorations_off (resizable_off w)) = Returned false /\
     ask_decorations (decorations_off (resizable_off w)) = Returned false).
Proof.
  intros n1 n2 n3 t1 t2 t3 w.
  cbv beta zeta; rewrite !resizable_run, !decorations_run; cbn [fst].
  rewrite !set_resizable_os, !set_decorations_os.
  cbn [style set_style]; rewrite ?set_resizable_os, ?set_decorations_os.
  cbn [style set_style].
  repeat split.
  - rewrite Z.land_lor_distr_l, to_bool_lor.
    replace (to_bool (decorations_written .& resizable_flags)) with true
      by reflexivity.
    rewrite orb_true_r; reflexivity.
  - rewrite Z.land_lor_distr_l, to_bool_lor.
    replace (to_bool (resizable_flags .& decorations_read)) with true
      by reflexivity.
    rewrite orb_true_r; reflexivity.
  - rewrite <- Z.land_assoc, Z.land_lor_distr_l, to_bool_lor.
    replace (to_bool (decorations_written .& (Z.lnot resizable_flags .& decorations_read)))
      with true by reflexivity.
    rewrite orb_true_r; reflexivity.
  - rewrite land_lnot_lnot_covered; reflexivity.
  - rewrite land_lnot_lnot_covered; reflexivity.
  - rewrite land_lnot_lnot_covered; reflexivity.
  - rewrite land_lnot_lnot_covered; reflexivity.
Qed.

(** ** What calls leave alone *)

Lemma os_note e w : os (note e w) = os w.
Proof. reflexivity. Qed.

Lemma m_impl_note e w : m_impl (note e w) = m_impl w.
Proof. reflexivity. Qed.

(** X5.  The eight queries change nothing of the window: after
    [minimized()], [maximized()], [resizable()], [decorations()],
    [always_on_top()], [background()], [max_size()] or [min_size()], from any
    thread, the fields of [window::impl] and the native state are as they
    were. *)
Theorem queries_read_only :
  forall n t w,
    let same := fun w' : world => m_impl w' = m_impl w /\ os w' = os w in
    same (snd (minimized (S (S n)) t w)) /\
    same (snd (maximized (S (S n)) t w)) /\
    same (snd (resizable (S (S n)) t w)) /\
    same (snd (decorations (S (S n)) t w)) /\
    same (snd (always_on_top (S (S n)) t w)) /\
    same (snd (background t w)) /\
    same (snd (max_size (S (S n)) t w)) /\
    same (snd (min_size (S (S n)) t w)).
Proof.
  intros n t w same; subst same; cbv beta.
  rewrite minimized_run, maximized_run, resizable_run, decorations_run,
    always_on_top_run, max_size_run, min_size_run.
  cbn [snd]; rewrite ?os_note, ?m_impl_note, os_hop, m_impl_hop.
  repeat split.
Qed.

(** ** Threads *)

Lemma log_hop_owner t w :
  exists posts,
    log (hop t w) = log w ++ posts /\
    forallb (on_thread (owner w)) posts = true.
Proof.
  unfold hop; destruct (Nat.eqb_spec t (owner w)) as [E|E].
  - exists []; rewrite app_nil_r; auto.
  - exists [Post t (owner w)]; cbn; rewrite Nat.eqb_refl; split; reflexivity.
Qed.

(** What a method that keeps to the owner adds to the log: events of the
    owning thread. *)
Lemma invoke_log m t w :
  keeps_to_owner m = true ->
  exists added,
    log (invoke m t w) = log w ++ added /\
    forallb (on_thread (owner w)) added = true.
Proof.
  intros Hm.
  destruct (log_hop_owner t w) as (posts & Hposts & Hon).
  assert (Hone : forall c,
    exists added,
      log (note (Call (owner w) c) (hop t w)) = log w ++ added /\
      forallb (on_thread (owner w)) added = true).
  { intros c; exists (posts ++ [Call (owner w) c]); cbn [log note].
    rewrite Hposts, app_assoc, forallb_app, Hon; cbn.
    rewrite Nat.eqb_refl; split; reflexivity. }
  assert (Htwo : forall c c',
    exists added,
      log (note (Call (owner w) c') (note (Call (owner w) c) (hop t w)))
        = log w ++ added /\
      forallb (on_thread (owner w)) added = true).
  { intros c c'; exists (posts ++ [Call (owner w) c; Call (owner w) c']).
    cbn [log note]; rewrite Hposts, <- !app_assoc, forallb_app, Hon; cbn.
    rewrite Nat.eqb_refl; split; reflexivity. }
  assert (Hnil : exists added : list event,
      log w = log w ++ added /\
      forallb (on_thread (owner w)) added = true).
  { exists []; rewrite app_nil_r; auto. }
  destruct m; try discriminate Hm; unfold invoke;
    rewrite ?minimized_run, ?maximized_run, ?resizable_run, ?decorations_run,
      ?always_on_top_run, ?max_size_run, ?min_size_run, ?hide_run, ?show_run,
      ?set_resizable_run, ?set_decorations_run, ?set_always_on_top_run;
    cbv zeta; cbn [snd];
    first [ apply Hone | apply Htwo | exact Hnil
          | unfold with_os; cbn [log]; apply Htwo ].
Qed.

Lemma invoke_owner m t w : owner (invoke m t w) = owner w.
Proof. unfold owner; rewrite invoke_m_impl; destruct m; reflexivity. Qed.

Lemma act_owner a w : owner (act a w) = owner w.
Proof. destruct a; [apply invoke_owner|reflexivity]. Qed.

Lemma perform_cons a acts w : perform (a :: acts) w = perform acts (act a w).
Proof. reflexivity. Qed.

Lemma perform_owner acts : forall w, owner (perform acts w) = owner w.
Proof.
  induction acts as [|a acts IH]; intros w; [reflexivity|].
  now rewrite perform_cons, IH, act_owner.
Qed.

(** X6.  Thread affinity.  Whatever threads call them, in whatever order,
    the methods that go through the guard ([minimized], [maximized],
    [resizable], [decorations], [always_on_top], [max_size], [min_size],
    [hide], [show], [set_resizable], [set_decorations], [set_always_on_top])
    and those that only touch the cache ([background], [set_max_size],
    [set_min_size]) make every platform call on the owning thread and hand
    every closure to the owning thread: a log that had only such events
    still has only such events. *)
Theorem platform_calls_on_owner :
  forall acts w,
    forallb affine acts = true ->
    forallb (on_thread (owner w)) (log w) = true ->
    forallb (on_thread (owner w)) (log (perform acts w)) = true.
Proof.
  induction acts as [|a acts IH]; intros w Hacts Hlog; [exact Hlog|].
  cbn [forallb] in Hacts; apply andb_true_iff in Hacts as [Ha Hacts].
  rewrite perform_cons, <- (act_owner a w).
  apply IH; [exact Hacts|]; rewrite act_owner.
  destruct a as [m t|f]; [|exact Hlog].
  destruct (invoke_log m t w Ha) as (added & Hadd & Hon).
  cbn [act]; rewrite Hadd, forallb_app, Hlog, Hon; reflexivity.
Qed.

(** From threads 0, 1 and 2, on a window of thread 0. *)
Lemma platform_calls_on_owner_witness :
  let acts := [Invoke (call_set_resizable false) 1%nat;
               Invoke call_decorations 2%nat;
               Platform (set_style WS_CAPTION);
               Invoke (call_set_max_size 800 600) 2%nat;
               Invoke call_hide O;
               Invoke call_max_size 1%nat] in
  forallb affine acts = true /\
  forallb (on_thread (owner overlapped_window)) (log overlapped_window) = true /\
  forallb (on_thread O) (log (perform acts overlapped_window)) = true /\
  List.length (log (perform acts overlapped_window)) = 9%nat.
Proof.
  intros acts.
  assert (Hacts : forallb affine acts = true) by reflexivity.
  assert (Hlog : forallb (on_thread (owner overlapped_window)) (log overlapped_window) = true)
    by reflexivity.
  split; [exact Hacts|].
  split; [exact Hlog|].
  split; [exact (platform_calls_on_owner acts overlapped_window Hacts Hlog)|].
  reflexivity.
Defined.

(** ** The cache over histories *)

Lemma act_background a w :
  impl.background (m_impl (act a w)) =
  match a with
  | Invoke (call_set_background c) _ => c
  | _ => impl.background (m_impl w)
  end.
Proof.
  destruct a as [m t|f]; [|reflexivity].
  cbn [act]; rewrite invoke_m_impl; destruct m; reflexivity.
Qed.


Lemma close_run n t w :
  close (S (S n)) t w =
  (Returned tt,
   note (Call (owner w) (sys_DestroyWindow (impl.hwnd (m_impl w)))) (hop t w)).
Proof.
  rewrite (marshalled close _ (fun k => eq_refl)).
  cbv [bind emit read_impl]; rewrite m_impl_hop; reflexivity.
Qed.

Lemma wider_perform_cons a acts w :
  wider_perform (a :: acts) w = wider_perform acts (wider_act a w).
Proof. reflexivity. Qed.

Lemma wider_act_m_impl_kept a w :
  impl.creation_thread (m_impl (wider_act a w)) = impl.creation_thread (m_impl w) /\
  impl.hwnd (m_impl (wider_act a w)) = impl.hwnd (m_impl w) /\
  impl.change_background (m_impl (wider_act a w)) = impl.change_background (m_impl w).
Proof.
  destruct a as [[m t|f]|t]; cbn [wider_act act]; [|repeat split..].
  rewrite invoke_m_impl; destruct m; repeat split.
Qed.

(** X9.  The methods [minimized], [maximized], [resizable], [decorations],
    [always_on_top], [background], [max_size], [min_size], [hide], [show],
    [start_drag], [start_resize], [set_minimized], [set_maximized],
    [set_resizable], [set_decorations], [set_always_on_top],
    [set_background], [set_max_size] and [set_min_size], called in any order
    from any threads with the native state changing in between, and a
    [close()] that ends the sequence, leave who owns the window, which
    handle it holds and which callback is installed as they were: the
    creation thread, [hwnd] and [change_background] are those the window
    started with. *)
Theorem identity_is_kept :
  forall acts n t w,
    let kept := fun w' : world =>
      impl.creation_thread (m_impl w') = impl.creation_thread (m_impl w) /\
      impl.hwnd (m_impl w') = impl.hwnd (m_impl w) /\
      impl.change_background (m_impl w') = impl.change_background (m_impl w) in
    kept (wider_perform acts w) /\
    kept (snd (close (S (S n)) t (wider_perform acts w))).
Proof.
  intros acts n t w kept; subst kept; cbv beta.
  assert (H : impl.creation_thread (m_impl (wider_perform acts w))
              = impl.creation_thread (m_impl w) /\
              impl.hwnd (m_impl (wider_perform acts w)) = impl.hwnd (m_impl w) /\
              impl.change_background (m_impl (wider_perform acts w))
              = impl.change_background (m_impl w)).
  { revert w; induction acts as [|a acts IH]; intros w; [repeat split|].
    rewrite wider_perform_cons.
    destruct (IH (wider_act a w)) as (Ht & Hh & Hc); rewrite Ht, Hh, Hc.
    apply wider_act_m_impl_kept. }
  split; [exact H|].
  rewrite close_run; cbn [snd]; rewrite m_impl_note, m_impl_hop; exact H.
Qed.

(** ** Construction, once more *)

(** X10.  The constructor returns exactly when the window class needs no
    registering or RegisterClassW answers non-zero, and CreateWindowExW
    answers a non-null handle; it never fails to terminate.  The window it
    returns belongs to the constructing thread, holds the handle the platform
    gave, has no size override and no callback, and the counter is one
    higher. *)
Theorem window_ctor_returns_iff :
  forall pf bg t p,
    let fine := (instance p <> 0 \/ class_atom pf <> 0) /\ new_handle pf <> 0 in
    (fine ->
     fst (window_ctor pf bg t p)
       = Returned (impl.mk t (new_handle pf) bg None None None) /\
     instances (snd (window_ctor pf bg t p)) = S (instances p)) /\
    (forall i, fst (window_ctor pf bg t p) = Returned i -> fine) /\
    fst (window_ctor pf bg t p) <> OutOfFuel.
Proof.
  intros pf bg t p fine; subst fine.
  rewrite window_ctor_cases; cbv zeta.
  destruct (Z.eqb_spec (instance p) 0) as [Hi|Hi];
    destruct (Z.eqb_spec (class_atom pf) 0) as [Hc|Hc];
    destruct (Z.eqb_spec (new_handle pf) 0) as [Hn|Hn];
    cbn [andb fst snd instances];
    (split; [|split]);
    try (intros [[H|H] H']; contradiction);
    try (intros i H; discriminate H);
    try discriminate;
    try (intros _; split; reflexivity);
    intros i _; split; auto.
Qed.

(** A second window, on a platform that answers well, in a process whose
    class is registered. *)
Lemma window_ctor_returns_iff_witness :
  let p := snd (window_ctor healthy white O (proc process_start)) in
  ((instance p <> 0 \/ class_atom healthy <> 0) /\ new_handle healthy <> 0) /\
  fst (window_ctor healthy white 1%nat p)
    = Returned (impl.mk 1%nat 0x20304 white None None None) /\
  instances (snd (window_ctor healthy white 1%nat p)) = 2%nat.
Proof.
  intros p.
  assert (Hfine : (instance p <> 0 \/ class_atom healthy <> 0) /\ new_handle healthy <> 0)
    by (split; [left|]; discriminate).
  destruct (window_ctor_returns_iff healthy white 1%nat p) as (Hret & _ & _).
  split; [exact Hfine|exact (Hret Hfine)].
Defined.

Lemma registrations_app l l' :
  registrations (l ++ l') = (registrations l + registrations l')%nat.
Proof. unfold registrations; now rewrite filter_app, length_app. Qed.

(** The class has been asked for once if the static is set, never if not. *)
Lemma step_registrations op h :
  has_module op = true ->
  registrations (calls (proc h)) = (if instance (proc h) =? 0 then O else 1%nat) ->
  registrations (calls (proc (step op h)))
  = (if instance (proc (step op h)) =? 0 then O else 1%nat).
Proof.
  destruct op as [pf bg t|k t]; cbn [has_module]; intros Hm Hinv.
  - apply negb_true_iff in Hm.
    unfold step; rewrite window_ctor_cases; cbv zeta.
    destruct (instance (proc h) =? 0) eqn:Hi;
      destruct (class_atom pf =? 0), (new_handle pf =? 0);
      cbn [andb proc instance instances calls];
      rewrite ?Hm, ?Hi, ?registrations_app, ?Hinv; reflexivity.
  - unfold step; destruct (nth_error (live h) k); [|exact Hinv].
    cbn [proc window_dtor]; unfold window_dtor, SetWindowLongPtrW, DestroyWindow,
      bind, emit_p; cbn [snd instance calls].
    rewrite !registrations_app, Hinv; cbn; lia.
Qed.

(** X11.  The window class is asked for at most once per process.  As long
    as GetModuleHandleW answers a non-null handle, however many windows are
    constructed and destroyed and whatever RegisterClassW and CreateWindowExW
    answer, RegisterClassW is called once by the first construction and never
    again: not for a later window, and not to retry a registration that
    failed. *)
Theorem class_registered_at_most_once :
  forall ops,
    forallb has_module ops = true ->
    let p := proc (run ops process_start) in
    registrations (calls p) = (if instance p =? 0 then O else 1%nat) /\
    (registrations (calls p) <= 1)%nat.
Proof.
  intros ops Hops p; subst p.
  assert (Inv : registrations (calls (proc (run ops process_start)))
                = (if instance (proc (run ops process_start)) =? 0 then O else 1%nat)).
  { induction ops as [|op ops IH] using rev_ind; [reflexivity|].
    rewrite forallb_app in Hops; apply andb_true_iff in Hops as [Hops Hop].
    cbn [forallb] in Hop; rewrite andb_true_r in Hop.
    rewrite run_snoc; apply step_registrations; auto. }
  split; [exact Inv|].
  rewrite Inv; destruct (instance (proc (run ops process_start)) =? 0); lia.
Qed.

(** A registration that fails, then two windows, one of them destroyed. *)
Lemma class_registered_at_most_once_witness :
  let ops := [New no_class white O; New healthy white O;
              New healthy white 1%nat; Delete O O] in
  forallb has_module ops = true /\
  registrations (calls (proc (run ops process_start))) = 1%nat /\
  List.length (live (run ops process_start)) = 1%nat.
Proof.
  intros ops.
  assert (Hops : forallb has_module ops = true) by reflexivity.
  destruct (class_registered_at_most_once ops Hops) as [Hcount _].
  split; [exact Hops|].
  split; [rewrite Hcount; reflexivity|reflexivity].
Defined.

Lemma Forall_remove_nth {A : Type} (Q : A -> Prop) k : forall l,
  Forall Q l -> Forall Q (remove_nth k l).
Proof.
  induction k as [|k IH]; intros [|a l] H; try exact H.
  - inversion H; assumption.
  - inversion H; subst; constructor; [assumption|].
    apply (IH l); assumption.
Qed.

(** X12.  Every live window holds a handle: after any sequence of
    constructions and destructions, on whatever platforms, each window that
    is constructed and not yet destroyed has a non-null [hwnd], and has no
    size override and no callback that construction would have put there. *)
Theorem live_windows_hold_handles :
  forall ops,
    Forall (fun i => impl.hwnd i <> 0 /\
                     impl.max_size i = None /\ impl.min_size i = None /\
                     impl.change_background i = None)
           (live (run ops process_start)).
Proof.
  induction ops as [|op ops IH] using rev_ind; [constructor|].
  rewrite run_snoc; set (h := run ops process_start) in *.
  destruct op as [pf bg t|k t]; unfold step.
  - destruct (window_ctor pf bg t (proc h)) as [[i|what|] p] eqn:E;
      cbn [live]; try exact IH.
    apply Forall_app; split; [exact IH|].
    destruct (window_ctor_fresh _ _ _ _ _ _ E) as [-> Hn].
    repeat constructor; exact Hn.
  - destruct (nth_error (live h) k); [|exact IH].
    cbn [live]; apply Forall_remove_nth; exact IH.
Qed.

(** ** Gestures *)

Lemma translated_known b edge :
  translated b edge <> 0 -> In edge (known_edges b).
Proof.
  unfold translated, known_edges.
  repeat match goal with
         | |- context [if ?x =? ?y then _ else _] =>
             destruct (Z.eqb_spec x y) as [->|?]; [intros _; cbn; tauto|]
         end.
  intros H; contradiction H; reflexivity.
Qed.

Lemma start_drag_run t w :
  start_drag t w =
  (Returned tt,
   note (Call t (sys_PostMessage WM_SYSCOMMAND SC_DRAGMOVE 0))
     (note (Call t sys_ReleaseCapture) w)).
Proof. reflexivity. Qed.

(** X13.  The command [start_resize] posts is 0 or one of SC_SIZE+1 to
    SC_SIZE+8, for any edge value and any numbering of the enumerators, and
    so never SC_DRAGMOVE, the command [start_drag] posts.  With the
    enumerators on four different bits it is non-zero exactly for the eight
    known edges, and two edges that get the same non-zero command are the
    same edge. *)
Theorem start_resize_codes :
  forall b e1 e2,
    (translated b e1 = 0 \/
     SC_SIZE + WMSZ_LEFT <= translated b e1 <= SC_SIZE + WMSZ_BOTTOMRIGHT) /\
    translated b e1 <> SC_DRAGMOVE /\
    (forall t w,
        start_drag t w =
        (Returned tt,
         note (Call t (sys_PostMessage WM_SYSCOMMAND SC_DRAGMOVE 0))
           (note (Call t sys_ReleaseCapture) w))) /\
    (flag_enum b ->
     (translated b e1 <> 0 <-> In e1 (known_edges b)) /\
     (translated b e1 <> 0 -> translated b e1 = translated b e2 -> e1 = e2)).
Proof.
  intros b e1 e2.
  assert (Hrange : translated b e1 = 0 \/
     SC_SIZE + WMSZ_LEFT <= translated b e1 <= SC_SIZE + WMSZ_BOTTOMRIGHT).
  { unfold translated.
    repeat match goal with
           | |- context [if ?x =? ?y then _ else _] => destruct (x =? y)
           end;
      first [left; reflexivity | right; split; discriminate]. }
  split; [exact Hrange|].
  split; [destruct Hrange as [H|[H H']]; rewrite ?H; try discriminate;
          intros E; rewrite E in H'; apply H'; reflexivity|].
  split; [intros; apply start_drag_run|].
  intros Hb.
  assert (Hin : forall e, In e (known_edges b) ->
            In (e, translated b e)
               [(window_edge.left b, SC_SIZE + WMSZ_LEFT);
                (window_edge.right b, SC_SIZE + WMSZ_RIGHT);
                (window_edge.top b, SC_SIZE + WMSZ_TOP);
                (window_edge.top b .| window_edge.left b, SC_SIZE + WMSZ_TOPLEFT);
                (window_edge.top b .| window_edge.right b, SC_SIZE + WMSZ_TOPRIGHT);
                (window_edge.bottom b, SC_SIZE + WMSZ_BOTTOM);
                (window_edge.bottom b .| window_edge.left b, SC_SIZE + WMSZ_BOTTOMLEFT);
                (window_edge.bottom b .| window_edge.right b, SC_SIZE + WMSZ_BOTTOMRIGHT)]).
  { intros e He; unfold known_edges in He; cbn [In] in *.
    repeat (destruct He as [<-|He];
            [rewrite ?(translated_left b Hb), ?(translated_right b Hb),
               ?(translated_top b Hb), ?(translated_top_left b Hb),
               ?(translated_top_right b Hb), ?(translated_bottom b Hb),
               ?(translated_bottom_left b Hb), ?(translated_bottom_right b Hb);
             tauto|]).
    contradiction. }
  split.
  - split; [apply translated_known|].
    intros He; specialize (Hin _ He); cbn [In] in Hin.
    repeat (destruct Hin as [Hin|Hin];
            [injection Hin as _ Hcode; rewrite <- Hcode; discriminate|]).
    contradiction.
  - intros Hnz Heq.
    assert (Hnz2 : translated b e2 <> 0) by (rewrite <- Heq; exact Hnz).
    pose proof (Hin _ (translated_known _ _ Hnz)) as H1.
    pose proof (Hin _ (translated_known _ _ Hnz2)) as H2.
    rewrite <- Heq in H2; cbn [In] in H1, H2.
    repeat (destruct H1 as [H1|H1]; [|]); try contradiction;
      repeat (destruct H2 as [H2|H2]; [|]); try contradiction;
      injection H1 as E1 C1; injection H2 as E2 C2;
      first [ congruence | rewrite <- C1 in C2; discriminate C2 ].
Qed.

(** With the enumerators on bits 0 to 3, at top+left. *)
Lemma start_resize_codes_witness :
  flag_enum low_bits /\
  In 5 (known_edges low_bits) /\
  translated low_bits 5 <> 0.
Proof.
  destruct (start_resize_codes low_bits 5 5) as (_ & _ & _ & H).
  destruct (H low_bits_flag_enum) as [[_ Hknown] _].
  assert (Hin : In 5 (known_edges low_bits)) by (cbn; tauto).
  split; [exact low_bits_flag_enum|].
  split; [exact Hin|exact (Hknown Hin)].
Defined.

(** ** Closing *)

(** X14.  [close()], from any thread, has DestroyWindow called on the owning
    thread for the window's handle, and leaves the fields of [window::impl]
    as they were: the window keeps the handle it has just destroyed.  The
    destructor, run afterwards on whatever thread, therefore detaches the
    back-pointer from that same handle and calls DestroyWindow on it a second
    time. *)
Theorem close_keeps_the_handle :
  forall n t t' w p,
    let r := close (S (S n)) t w in
    fst r = Returned tt /\
    log (snd r) = log (hop t w)
                  ++ [Call (owner w) (sys_DestroyWindow (impl.hwnd (m_impl w)))] /\
    m_impl (snd r) = m_impl w /\
    calls (snd (window_dtor (m_impl (snd r)) t' p))
      = calls p
        ++ [Call t' (sys_SetWindowLongPtrW (impl.hwnd (m_impl w)) GWLP_USERDATA false);
            Call t' (sys_DestroyWindow (impl.hwnd (m_impl w)))].
Proof.
  intros n t t' w p r; subst r.
  rewrite !close_run; cbn [fst snd log note m_impl].
  rewrite !m_impl_hop.
  repeat split.
  unfold window_dtor, SetWindowLongPtrW, DestroyWindow, bind, emit_p.
  cbn [snd calls]; rewrite <- app_assoc; reflexivity.
Qed.

(** ** The message pump *)

Lemma dispatched_app l l' : dispatched (l ++ l') = dispatched l ++ dispatched l'.
Proof.
  induction l as [|[| |msg|msg] l IH]; cbn [dispatched app]; rewrite ?IH; reflexivity.
Qed.

(** One turn of the blocking loop on a message that is not WM_QUIT. *)
Lemma run_true_turn fuel msg rest trace :
  msg <> WM_QUIT ->
  run_true (S fuel) (mk_pump (msg :: rest) trace) =
  run_true fuel
    (mk_pump rest
       (((trace ++ [pump_GetMessage]) ++ [pump_TranslateMessage msg])
          ++ [pump_DispatchMessage msg])).
Proof.
  intros H; cbn [run_true GetMessage pending pumped].
  apply Z.eqb_neq in H; rewrite H; reflexivity.
Qed.

(** The loop on messages none of which is WM_QUIT: each costs one turn and
    is asked for, translated and dispatched, in that order. *)
Lemma run_true_quit_free pre : forall fuel rest trace,
  ~ In WM_QUIT pre ->
  run_true (List.length pre + fuel) (mk_pump (pre ++ rest) trace)
  = run_true fuel (mk_pump rest (trace ++ handled pre)).
Proof.
  induction pre as [|msg pre IH]; intros fuel rest trace Hpre.
  - cbn [handled flat_map]; rewrite app_nil_r; reflexivity.
  - cbn [List.length app Nat.add].
    rewrite run_true_turn by (intros E; apply Hpre; left; exact E).
    rewrite IH by (intros H; apply Hpre; right; exact H).
    cbn [handled flat_map]; rewrite <- !app_assoc; reflexivity.
Qed.

Lemma dispatched_handled msgs : dispatched (handled msgs) = msgs.
Proof.
  induction msgs as [|msg msgs IH]; [reflexivity|].
  cbn [handled flat_map app dispatched]; fold (handled msgs); now rewrite IH.
Qed.

(** X15.  [run<true>] returns at the first WM_QUIT and only there.  For
    each message that came before it, in their order of arrival, it has
    called GetMessage, then TranslateMessage and then DispatchMessage on that
    message, and nothing else; it has taken the WM_QUIT off the queue with
    one more GetMessage, neither translating nor dispatching it, and has
    left what came after on the queue.  On a queue with no WM_QUIT it does
    the same for every message and stays in GetMessage. *)
Theorem run_true_stops_at_quit :
  forall pre rest trace n,
    ~ In WM_QUIT pre ->
    run_true (List.length pre + S n) (mk_pump (pre ++ WM_QUIT :: rest) trace)
      = Stopped (mk_pump rest (trace ++ handled pre ++ [pump_GetMessage])) /\
    run_true (List.length pre + S n) (mk_pump pre trace)
      = Waiting (mk_pump [] (trace ++ handled pre)) /\
    dispatched (trace ++ handled pre ++ [pump_GetMessage]) = dispatched trace ++ pre.
Proof.
  intros pre rest trace n Hpre; split; [|split].
  - rewrite (run_true_quit_free pre (S n) (WM_QUIT :: rest) trace Hpre).
    cbn [run_true GetMessage pending pumped]; rewrite Z.eqb_refl; cbn [negb Z.eqb].
    rewrite <- app_assoc; reflexivity.
  - pose proof (run_true_quit_free pre (S n) [] trace Hpre) as H.
    rewrite app_nil_r in H; rewrite H; reflexivity.
  - rewrite !dispatched_app, dispatched_handled; cbn [dispatched].
    rewrite app_nil_r; reflexivity.
Qed.

(** Three messages, a WM_QUIT, one more message. *)
Lemma run_true_stops_at_quit_witness :
  ~ In WM_QUIT [0x0113; 0x000F; 0x0200] /\
  run_true 4 (mk_pump [0x0113; 0x000F; 0x0200; WM_QUIT; 0x0010] [])
    = Stopped (mk_pump [0x0010]
                 [pump_GetMessage; pump_TranslateMessage 0x0113; pump_DispatchMessage 0x0113;
                  pump_GetMessage; pump_TranslateMessage 0x000F; pump_DispatchMessage 0x000F;
                  pump_GetMessage; pump_TranslateMessage 0x0200; pump_DispatchMessage 0x0200;
                  pump_GetMessage]).
Proof.
  assert (Hpre : ~ In WM_QUIT [0x0113; 0x000F; 0x0200]).
  { cbn [In]; intros [H|[H|[H|H]]]; try discriminate H; exact H. }
  destruct (run_true_stops_at_quit [0x0113; 0x000F; 0x0200] [0x0010] [] O Hpre)
    as (Hrun & _ & _).
  split; [exact Hpre|exact Hrun].
Defined.

Lemma run_false_message msg rest trace :
  run_false (mk_pump (msg :: rest) trace) =
  mk_pump rest
    (((trace ++ [pump_PeekMessage]) ++ [pump_TranslateMessage msg])
       ++ [pump_DispatchMessage msg]).
Proof. reflexivity. Qed.

Lemma run_false_empty trace :
  run_false (mk_pump [] trace) = mk_pump [] (trace ++ [pump_PeekMessage]).
Proof. reflexivity. Qed.

(** X16.  [run<false>] never waits and handles one message at most: called
    [k] times it has dispatched the first [k] messages of the queue, in
    order, or all of them if there are fewer, and has left the others.  It
    dispatches a WM_QUIT like any other message. *)
Theorem polls_take_one_message_each :
  forall k queue trace,
    pending (poll k (mk_pump queue trace)) = skipn k queue /\
    dispatched (pumped (poll k (mk_pump queue trace)))
      = dispatched trace ++ firstn k queue.
Proof.
  induction k as [|k IH]; intros queue trace.
  - cbn [poll skipn firstn pending pumped]; rewrite app_nil_r; split; reflexivity.
  - cbn [poll]; destruct queue as [|msg rest].
    + rewrite run_false_empty.
      destruct (IH [] (trace ++ [pump_PeekMessage])) as [Hp Hd].
      rewrite Hp, Hd, dispatched_app, skipn_nil, firstn_nil; cbn [dispatched].
      rewrite !app_nil_r; split; reflexivity.
    + rewrite run_false_message.
      destruct (IH rest (((trace ++ [pump_PeekMessage]) ++ [pump_TranslateMessage msg])
                          ++ [pump_DispatchMessage msg])) as [Hp Hd].
      rewrite Hp, Hd, !dispatched_app; cbn [dispatched skipn firstn].
      rewrite !app_nil_r, <- app_assoc; split; reflexivity.
Qed.
